(** * GlowCheck core services: a shallow embedding and its properties

    The development follows the three service classes of the application:

    - [NetworkService]      (lib/network):  request retry, backoff, headers;
    - [AIService]           (lib/ai-service): decoding of AI completions and
                            the mock generators used as fallback;
    - [SubscriptionService] (lib/subscription-service.ts): trial and paid
                            entitlement records kept in AsyncStorage.

    Calls to the logger, the performance monitor, analytics and the error
    reporter are left out: the methods use nothing they return, and they
    are taken not to throw.  Clock readings ([new Date()], [Date.now()]),
    the draws of [Math.random], the outcome of each [fetch] and of the
    simulated billing call are inputs of the embedded methods.

    Part I holds the embedding, Part II the theorems. *)

From Stdlib Require Import ZArith QArith Qround Lia List String Bool.
From stdpp Require Import gmap strings list fin_maps pretty.
Import ListNotations.

Local Open Scope string_scope.
Local Open Scope list_scope.
Local Open Scope Z_scope.

(* ===================================================================== *)
(** * Part I.  The embedding                                              *)
(* ===================================================================== *)

(* --------------------------------------------------------------------- *)
(** ** NetworkService                                                     *)
(* --------------------------------------------------------------------- *)

Module Network.

(** The object [NetworkError]: an [Error] carrying classification fields. *)
Record NetworkError : Type := mkNetworkError {
  message : string;
  status : option Z;
  code : option string;
  isNetworkError : bool;
  isRetryable : bool
}.

(** [!status] on an optional number: [undefined] and [0] are falsy. *)
Definition status_falsy (status : option Z) : bool :=
  match status with
  | None => true
  | Some s => s =? 0
  end.

Definition status_test (p : Z -> bool) (status : option Z) : bool :=
  match status with
  | None => false
  | Some s => p s
  end.

Definition code_is (c : string) (code : option string) : bool :=
  match code with
  | None => false
  | Some c' => bool_decide (c' = c)
  end.

Definition isRetryableError (status : option Z) (code : option string) : bool :=
  if status_falsy status then true
  else if status_test (fun s => 500 <=? s) status then true
  else if status_test (fun s => (s =? 408) || (s =? 429)) status then true
  else if code_is "NETWORK_ERROR" code || code_is "TIMEOUT" code then true
  else false.

Definition createError (message : string) (status : option Z)
    (code : option string) : NetworkError :=
  {| message := message;
     status := status;
     code := code;
     isNetworkError := true;
     isRetryable := isRetryableError status code |}.

(** Request bodies.  A [FormData] is kept as its list of appended parts. *)
Definition FormData : Type := list (string * string).

Inductive Body : Type :=
| NoBody
| TextBody (json : string)
| FormBody (fd : FormData).

Record RequestInit : Type := mkRequestInit {
  method : string;
  body : Body
}.

Record RequestConfig : Type := mkRequestConfig {
  timeout : option Z;
  retries : option nat;
  retryDelay : option Z;
  headers : option (gmap string string);
  skipAuth : option bool
}.

Definition noConfig : RequestConfig :=
  {| timeout := None; retries := None; retryDelay := None;
     headers := None; skipAuth := None |}.

(** What [fetch] is given on one attempt. *)
Record Request : Type := mkRequest {
  req_url : string;
  req_method : string;
  req_body : Body;
  req_headers : gmap string string;
  req_timeout : Z
}.

(** What one [await fetch(...)] does: it resolves with a response, or it
    rejects with an [Error] (name, message) or with some other value. *)
Inductive FetchOutcome : Type :=
| Responds (status : Z) (statusText : string)
| RejectsError (name message : string)
| RejectsOther.

Record Response : Type := mkResponse {
  resp_status : Z;
  resp_statusText : string
}.

(** [response.ok]: the status is in the range 200-299. *)
Definition ok (r : Response) : bool :=
  (200 <=? resp_status r) && (resp_status r <=? 299).

(** Observable effects of a call, in order. *)
Inductive Event : Type :=
| EvFetch (attempt : nat) (r : Request)
| EvDelay (ms : Z).

(** How the promise returned by [makeRequest] settles.  [lastError!] may be
    [undefined], hence the option. *)
Inductive Settled : Type :=
| Resolved (r : Response)
| Rejected (e : option NetworkError).

(** A value travelling from a [throw] to the enclosing [catch]. *)
Inductive Thrown : Type :=
| ThrownError (name message : string)
| ThrownOther.

(** Outcome of the [try] block of one loop iteration. *)
Inductive TryOutcome : Type :=
| TryReturn (r : Response)
| TryContinue (e : NetworkError) (ms : Z)
| TryThrow (t : Thrown).

Section WithConfig.

(** The module-level constants [CONFIG.API.*] and the User-Agent string
    assembled from [CONFIG.APP.*]. *)
Variables (API_TIMEOUT : Z) (API_RETRY_ATTEMPTS : nat) (API_RETRY_DELAY : Z).
Variable USER_AGENT : string.

Definition baseHeaders : gmap string string :=
  <["Content-Type" := "application/json"]>
    (<["User-Agent" := USER_AGENT]> ∅).

(** Object spread [{...a, ...b}]: the keys of [b] win. *)
Definition spread (a b : gmap string string) : gmap string string := b ∪ a.

Definition opt_headers (h : option (gmap string string)) : gmap string string :=
  default ∅ h.

(** The network, as the loop sees it: the outcome of the fetch issued on
    each attempt. *)
Variable net : nat -> FetchOutcome.

Section Loop.
Variables (url : string) (options : RequestInit).
Variables (timeout_ms : Z) (retries_n : nat) (retryDelay_ms : Z).
Variable requestHeaders : gmap string string.

Definition request : Request :=
  {| req_url := url; req_method := method options; req_body := body options;
     req_headers := requestHeaders; req_timeout := timeout_ms |}.

(** The [try] block.  A [throw] in it is caught by the [catch] block of the
    same iteration; the thrown [NetworkError] is an [Error] named Error. *)
Definition try_block (attempt : nat) : TryOutcome :=
  match net attempt with
  | Responds st txt =>
      let response := {| resp_status := st; resp_statusText := txt |} in
      if negb (ok response) then
        let errorMessage := "HTTP " +:+ pretty st +:+ ": " +:+ txt in
        let error := createError errorMessage (Some st) None in
        if negb (isRetryable error) || (attempt =? retries_n)%nat then
          TryThrow (ThrownError "Error" (message error))
        else
          TryContinue error (retryDelay_ms * 2 ^ Z.of_nat attempt)
      else TryReturn response
  | RejectsError name msg => TryThrow (ThrownError name msg)
  | RejectsOther => TryThrow ThrownOther
  end.

(** The first statement of the [catch] block. *)
Definition catch_classify (t : Thrown) : NetworkError :=
  match t with
  | ThrownError name msg =>
      createError msg None
        (Some (if bool_decide (name = "AbortError")
               then "TIMEOUT" else "NETWORK_ERROR"))
  | ThrownOther => createError "Unknown network error" None None
  end.

(** The [for] loop; [fuel] counts the iterations left, that is
    [retries + 1 - attempt]. *)
Fixpoint attempts (fuel : nat) (attempt : nat)
    (lastError : option NetworkError) : Settled * list Event :=
  match fuel with
  | O => (Rejected lastError, [])
  | S fuel' =>
      match try_block attempt with
      | TryReturn r => (Resolved r, [EvFetch attempt request])
      | TryContinue e ms =>
          let rest := attempts fuel' (S attempt) (Some e) in
          (fst rest, EvFetch attempt request :: EvDelay ms :: snd rest)
      | TryThrow t =>
          let networkError := catch_classify t in
          if negb (isRetryable networkError) || (attempt =? retries_n)%nat then
            (Rejected (Some networkError), [EvFetch attempt request])
          else
            let rest := attempts fuel' (S attempt) (Some networkError) in
            (fst rest, EvFetch attempt request
                         :: EvDelay (retryDelay_ms * 2 ^ Z.of_nat attempt)
                         :: snd rest)
      end
  end.

End Loop.

Definition makeRequest (url : string) (options : RequestInit)
    (config : RequestConfig) : Settled * list Event :=
  let timeout_ms := default API_TIMEOUT (timeout config) in
  let retries_n := default API_RETRY_ATTEMPTS (retries config) in
  let retryDelay_ms := default API_RETRY_DELAY (retryDelay config) in
  let headers_ := opt_headers (headers config) in
  let requestHeaders := spread baseHeaders headers_ in
  attempts url options timeout_ms retries_n retryDelay_ms requestHeaders
    (S retries_n) 0%nat None.

(** [{ ...config, headers: h }] for an optional [config]. *)
Definition with_headers (config : option RequestConfig)
    (h : gmap string string) : RequestConfig :=
  let c := default noConfig config in
  {| timeout := timeout c; retries := retries c; retryDelay := retryDelay c;
     headers := Some h; skipAuth := skipAuth c |}.

(** [config?.headers], spread. *)
Definition config_headers (config : option RequestConfig) : gmap string string :=
  match config with
  | None => ∅
  | Some c => opt_headers (headers c)
  end.

(** The argument [data] of [post]: a [FormData], or a value that
    [JSON.stringify] turns into text. *)
Inductive PostData : Type :=
| DataForm (fd : FormData)
| DataJson (stringified : string).

Definition post (url : string) (data : PostData)
    (config : option RequestConfig) : Settled * list Event :=
  let body_ := match data with
               | DataForm fd => FormBody fd
               | DataJson s => TextBody s
               end in
  let headers_ : gmap string string :=
    match data with
    | DataForm _ => ∅
    | DataJson _ => {["Content-Type" := "application/json"]}
    end in
  makeRequest url {| method := "POST"; body := body_ |}
    (with_headers config (spread headers_ (config_headers config))).

(** The argument [file] of [uploadFile]. *)
Inductive Upload : Type :=
| UpFile (f : string)
| UpForm (fd : FormData).

Definition uploadFile (url : string) (file : Upload)
    (config : option RequestConfig) : Settled * list Event :=
  let formData := match file with
                  | UpForm fd => fd
                  | UpFile f => [("file", f)]
                  end in
  makeRequest url {| method := "POST"; body := FormBody formData |}
    (with_headers config (spread ∅ (config_headers config))).

End WithConfig.

(** Projections of a trace. *)
Definition fetches (evs : list Event) : list (nat * Request) :=
  omap (fun ev => match ev with
                  | EvFetch n r => Some (n, r)
                  | EvDelay _ => None
                  end) evs.

Definition delays (evs : list Event) : list Z :=
  omap (fun ev => match ev with
                  | EvFetch _ _ => None
                  | EvDelay ms => Some ms
                  end) evs.

(** An attempt fails when the fetch rejects or answers outside 200-299. *)
Definition attempt_fails (o : FetchOutcome) : bool :=
  match o with
  | Responds st txt => negb (ok {| resp_status := st; resp_statusText := txt |})
  | RejectsError _ _ => true
  | RejectsOther => true
  end.

(** An attempt answered by the server with a status of 500 or more. *)
Definition server_error (o : FetchOutcome) : bool :=
  match o with
  | Responds st _ => 500 <=? st
  | _ => false
  end.

(** The error that leaves the [catch] block for a failed attempt. *)
Definition propagated (o : FetchOutcome) : NetworkError :=
  match o with
  | Responds st txt =>
      createError ("HTTP " +:+ pretty st +:+ ": " +:+ txt) None (Some "NETWORK_ERROR")
  | RejectsError name msg =>
      createError msg None
        (Some (if bool_decide (name = "AbortError") then "TIMEOUT" else "NETWORK_ERROR"))
  | RejectsOther => createError "Unknown network error" None None
  end.

(** Attempts [a], [a+1], ..., [a+k-1], each followed by its backoff delay. *)
Definition backoff_trace (r : Request) (d : Z) (a k : nat) : list Event :=
  flat_map (fun n => [EvFetch n r; EvDelay (d * 2 ^ Z.of_nat n)]) (seq a k).

End Network.

(* --------------------------------------------------------------------- *)
(** ** JavaScript values                                                  *)
(* --------------------------------------------------------------------- *)

(** The values that [JSON.parse] produces and that the decoders pass
    through unchanged.  Numbers are kept as rationals: every finite JSON
    number literal denotes one (rounding to a double is not modelled, and
    neither are [NaN] and the infinities).  An object is the list of its
    own properties; [VUndefined] is what reading an absent property
    yields. *)
Module JS.

#[local] Set Warnings "-register-all".

Inductive value : Type :=
| VUndefined
| VNull
| VBool (b : bool)
| VNum (q : Q)
| VStr (s : string)
| VArr (items : list value)
| VObj (fields : list (string * value)).

Inductive Exn : Type :=
| SyntaxError
| TypeError
| Error (msg : string).

(** [ToBoolean]. *)
Definition truthy (v : value) : bool :=
  match v with
  | VUndefined | VNull => false
  | VBool b => b
  | VNum q => negb (Qeq_bool q 0)
  | VStr s => negb (bool_decide (s = EmptyString))
  | VArr _ | VObj _ => true
  end.

(** [a || b]. *)
Definition or (a b : value) : value := if truthy a then a else b.

Fixpoint assoc (k : string) (fields : list (string * value)) : value :=
  match fields with
  | [] => VUndefined
  | (k', v) :: rest => if bool_decide (k' = k) then v else assoc k rest
  end.

(** [v.k] for a [v] that is neither [null] nor [undefined]. *)
Definition prop (v : value) (k : string) : value :=
  match v with
  | VObj fields => assoc k fields
  | _ => VUndefined
  end.

(** [v.k] in general: reading a property of [null] or [undefined] throws. *)
Definition get (v : value) (k : string) : Exn + value :=
  match v with
  | VUndefined | VNull => inl TypeError
  | _ => inr (prop v k)
  end.

Definition typeof_number (v : value) : bool :=
  match v with VNum _ => true | _ => false end.

Definition typeof_string (v : value) : bool :=
  match v with VStr _ => true | _ => false end.

Definition isArray (v : value) : bool :=
  match v with VArr _ => true | _ => false end.

(** [v !== false]. *)
Definition not_false (v : value) : bool :=
  match v with VBool false => false | _ => true end.

Definition num (z : Z) : value := VNum (inject_Z z).

Definition strings (l : list string) : value := VArr (map VStr l).

(** [arr[i]] on an array of strings. *)
Definition index (arr : list string) (i : Z) : value :=
  if i <? 0 then VUndefined
  else match nth_error arr (Z.to_nat i) with
       | Some s => VStr s
       | None => VUndefined
       end.

End JS.

(* --------------------------------------------------------------------- *)
(** ** A monad for the asynchronous methods                            *)
(* --------------------------------------------------------------------- *)

(** A method runs over some state and returns or throws. *)
Module Eff.

Definition M (St A : Type) : Type := St -> (JS.Exn + A) * St.

Definition ret {St A} (a : A) : M St A := fun g => (inr a, g).

Definition bind {St A B} (m : M St A) (f : A -> M St B) : M St B :=
  fun g => match m g with
           | (inr a, g') => f a g'
           | (inl e, g') => (inl e, g')
           end.

Definition throw {St A} (e : JS.Exn) : M St A := fun g => (inl e, g).

(** [try { m } catch (e) { h e }]. *)
Definition try_catch {St A} (m : M St A) (h : JS.Exn -> M St A) : M St A :=
  fun g => match m g with
           | (inr a, g') => (inr a, g')
           | (inl e, g') => h e g'
           end.

Definition lift {St A} (x : JS.Exn + A) : M St A := fun g => (x, g).

(** The random source of [Math.random] is a stream of 53-bit numerators:
    the [n]-th call returns [draws n mod 2^53 / 2^53], a number in
    [0, 1). *)
Record Rng : Type := mkRng {
  draws : nat -> Z;
  cursor : nat
}.

Definition Math_random : M Rng Q :=
  fun g => (inr (Qmake (draws g (cursor g) mod 2 ^ 53) (2 ^ 53)),
            {| draws := draws g; cursor := S (cursor g) |}).

(** [Math.floor(x)]. *)
Definition Math_floor (x : Q) : Z := Qfloor x.

End Eff.

Declare Scope eff_scope.
Delimit Scope eff_scope with eff.
Notation "x <- m ;; k" := (Eff.bind m (fun x => k))
  (at level 100, m at next level, right associativity) : eff_scope.

(* --------------------------------------------------------------------- *)
(** ** AIService                                                          *)
(* --------------------------------------------------------------------- *)

Module AI.
Import JS Eff.
Local Open Scope eff_scope.

Abbreviation M := (Eff.M Rng).

(** The result records.  Their fields hold JavaScript values: what an
    accepted completion carries is handed on as it is, whatever the
    declared TypeScript type. *)
Record GlowAnalysisResult : Type := mkGlow {
  overallScore : value;
  skinPotential : value;
  skinQuality : value;
  jawlineScore : value;
  skinTone : value;
  skinType : value;
  brightness : value;
  hydration : value;
  symmetryScore : value;
  glowScore : value;
  improvements : value;
  recommendations : value;
  tips : value;
  aiTips : value
}.

Record OutfitAnalysisResult : Type := mkOutfit {
  outfitScore : value;
  colorMatchScore : value;
  styleScore : value;
  compatibleColors : value;
  outfit_tips : value;
  eventAppropriate : bool;
  seasonalMatch : bool
}.

Inductive TaskType : Type :=
| skincare | hydration_task | sleep | exercise | nutrition.

Record DailyTask : Type := mkTask {
  task_id : string;
  day : nat;
  title : string;
  description : string;
  type : TaskType;
  completed : bool;
  reminder : option string
}.

(** A [CoachingPlan] as the mock generator builds it. *)
Record CoachingPlan : Type := mkPlan {
  plan_id : string;
  goal : string;
  duration : nat;
  dailyTasks : list DailyTask;
  plan_tips : list string;
  expectedResults : list string
}.

(** What [generateCoachingPlan] resolves with: the fields of an accepted
    completion, untyped, or a synthesized plan. *)
Inductive GeneratedPlan : Type :=
| Decoded (id goal : string) (duration dailyTasks tips expectedResults : value)
| Synthesized (p : CoachingPlan).

(** [Math.floor(Math.random() * n)]. *)
Definition random_below (n : Z) : M Z :=
  r <- Math_random ;; ret (Math_floor (r * inject_Z n)).

Definition getMockGlowAnalysis : M GlowAnalysisResult :=
  k <- random_below 30 ;;
  let overallScore := k + 70 in
  let skinTones := ["Warm Beige"; "Cool Ivory"; "Olive Medium"; "Deep Caramel";
                    "Golden Tan"; "Porcelain Fair"] in
  let skinTypes := ["Normal"; "Dry"; "Oily"; "Combination"; "Sensitive"] in
  let potentials := ["High"; "Medium"; "Low"] in
  let qualities := ["Excellent"; "Good"; "Fair"; "Needs Improvement"] in
  let aiTips :=
    ["Hydrate twice daily with hyaluronic acid serum for plumper skin";
     "Use sunscreen every morning to prevent premature aging";
     "Add more Omega-3s to your diet for improved skin elasticity";
     "Try facial massage for 5 minutes daily to boost circulation";
     "Get 7-8 hours of quality sleep for optimal skin recovery"] in
  let improvements :=
    ["Increase daily water intake to 8-10 glasses for better hydration";
     "Incorporate vitamin C serum in morning routine for brighter skin";
     "Use a gentle exfoliant 2x per week to improve texture";
     "Apply a hydrating face mask weekly for deep moisture"] in
  let recommendations :=
    ["Morning: Gentle cleanser → Vitamin C serum → Moisturizer → SPF 30+";
     "Evening: Double cleanse → Retinol (2x/week) → Hydrating serum → Night cream";
     "Weekly: Gentle exfoliation + Deep hydrating mask";
     "Monthly: Professional facial or at-home enzyme treatment"] in
  i_potential <- random_below (Z.of_nat (length potentials)) ;;
  i_quality <- random_below (Z.of_nat (length qualities)) ;;
  k_jawline <- random_below 25 ;;
  i_tone <- random_below (Z.of_nat (length skinTones)) ;;
  i_type <- random_below (Z.of_nat (length skinTypes)) ;;
  k_brightness <- random_below 30 ;;
  k_hydration <- random_below 40 ;;
  k_symmetry <- random_below 20 ;;
  ret {| overallScore := num overallScore;
         skinPotential := index potentials i_potential;
         skinQuality := index qualities i_quality;
         jawlineScore := num (k_jawline + 70);
         skinTone := index skinTones i_tone;
         skinType := index skinTypes i_type;
         brightness := num (k_brightness + 65);
         hydration := num (k_hydration + 55);
         symmetryScore := num (k_symmetry + 75);
         glowScore := num overallScore;
         improvements := strings improvements;
         recommendations := strings recommendations;
         tips := strings (firstn 3 aiTips);
         aiTips := strings aiTips |}.

Definition getMockOutfitAnalysis : M OutfitAnalysisResult :=
  k_outfit <- random_below 30 ;;
  k_color <- random_below 30 ;;
  k_style <- random_below 30 ;;
  r_event <- Math_random ;;
  r_season <- Math_random ;;
  ret {| outfitScore := num (k_outfit + 70);
         colorMatchScore := num (k_color + 70);
         styleScore := num (k_style + 70);
         compatibleColors :=
           strings ["#FF6B98"; "#9D71E8"; "#4CAF50"; "#2196F3"; "#FFD166"];
         outfit_tips :=
           strings ["Try adding a statement accessory to elevate this look";
                    "This color palette works well with your skin tone";
                    "Consider a different shoe style for better proportion";
                    "A structured blazer would add sophistication"];
         eventAppropriate := negb (Qle_bool r_event (3 # 10));
         seasonalMatch := negb (Qle_bool r_season (2 # 10)) |}.

(** The tasks pushed for one [day] of the loop of [getMockCoachingPlan]. *)
Definition tasksOfDay (day : nat) : list DailyTask :=
  let dailyTasks :=
    [ {| task_id := "task-" +:+ pretty day +:+ "-1"; day := day;
         title := "Morning Skincare Routine";
         description := "Complete your morning skincare routine with cleanser, serum, and SPF";
         type := skincare; completed := false; reminder := None |};
      {| task_id := "task-" +:+ pretty day +:+ "-2"; day := day;
         title := "Hydration Goal";
         description := "Drink at least 8 glasses of water throughout the day";
         type := hydration_task; completed := false; reminder := None |};
      {| task_id := "task-" +:+ pretty day +:+ "-3"; day := day;
         title := "Beauty Sleep";
         description := "Get 7-8 hours of quality sleep for skin recovery";
         type := sleep; completed := false; reminder := None |} ] in
  if (day mod 3 =? 0)%nat then
    dailyTasks ++
      [ {| task_id := "task-" +:+ pretty day +:+ "-4"; day := day;
           title := "Light Exercise";
           description := "20 minutes of light exercise to boost circulation";
           type := exercise; completed := false; reminder := None |} ]
  else dailyTasks.

(** [for (let day = ...; day <= 30; day++) tasks.push(...dailyTasks)];
    [fuel] is the number of iterations left. *)
Fixpoint dayLoop (fuel : nat) (day : nat) (tasks : list DailyTask)
    : list DailyTask :=
  match fuel with
  | O => tasks
  | S fuel' => dayLoop fuel' (S day) (tasks ++ tasksOfDay day)
  end.

(** [now] is the reading of [Date.now()]. *)
Definition getMockCoachingPlan (now : Z) (goal : string) : CoachingPlan :=
  let tasks := dayLoop 30 1 [] in
  {| plan_id := "plan-" +:+ pretty now;
     goal := goal;
     duration := 30;
     dailyTasks := tasks;
     plan_tips :=
       ["Consistency is key - stick to your routine daily";
        "Take progress photos weekly to track improvements";
        "Listen to your skin and adjust products if needed";
        "Stay hydrated and eat a balanced diet"];
     expectedResults :=
       ["Improved skin texture and hydration";
        "More even skin tone";
        "Reduced appearance of fine lines";
        "Overall healthier, glowing complexion"] |}.

(** The collaborators of one call, as the method sees them: whether the
    S3 upload or the base64 conversion rejects, and what the POST to the
    language-model endpoint does. *)
Inductive LlmOutcome : Type :=
| LlmRejects                          (* fetch rejects, or is aborted *)
| LlmNotOk (statusText : string)      (* a response with [ok] false *)
| LlmCompletion (completion : string) (* [result.completion] *).

Record Env : Type := mkEnv {
  upload_rejects : bool;
  base64_rejects : bool;
  llm : LlmOutcome
}.

Section Decoders.

(** The runtime's [JSON.parse]: [None] stands for a thrown SyntaxError. *)
Variable JSON_parse : string -> option value.

Definition parse (text : string) : Exn + value :=
  match JSON_parse text with
  | Some v => inr v
  | None => inl SyntaxError
  end.

(** The two tests of [parseGlowAnalysis] on the parsed value. *)
Definition comprehensive_format (parsed : value) : bool :=
  typeof_number (prop parsed "overallScore")
  && typeof_string (prop parsed "skinTone")
  && isArray (prop parsed "aiTips").

Definition old_format (parsed : value) : bool :=
  typeof_number (prop parsed "glowScore").

(** The [try] block of [parseGlowAnalysis]. *)
Definition parseGlowAnalysis_try (aiResponse : string) : Exn + GlowAnalysisResult :=
  match parse aiResponse with
  | inl e => inl e
  | inr parsed =>
      match get parsed "overallScore" with
      | inl e => inl e
      | inr _ =>
          if comprehensive_format parsed then
            inr {| overallScore := prop parsed "overallScore";
                   skinPotential := or (prop parsed "skinPotential") (VStr "Medium");
                   skinQuality := or (prop parsed "skinQuality") (VStr "Good");
                   jawlineScore := or (prop parsed "jawlineScore") (num 75);
                   skinTone := prop parsed "skinTone";
                   skinType := or (prop parsed "skinType") (VStr "Normal");
                   brightness := or (prop parsed "brightness") (num 75);
                   hydration := or (prop parsed "hydration") (num 70);
                   symmetryScore := or (prop parsed "symmetryScore") (num 85);
                   glowScore := prop parsed "overallScore";
                   improvements := or (prop parsed "improvements") (VArr []);
                   recommendations := or (prop parsed "recommendations") (VArr []);
                   tips := prop parsed "aiTips";
                   aiTips := prop parsed "aiTips" |}
          else if old_format parsed then
            inr {| overallScore := prop parsed "glowScore";
                   skinPotential := VStr "Medium";
                   skinQuality := VStr "Good";
                   jawlineScore := num 75;
                   skinTone := or (prop parsed "skinTone") (VStr "Medium");
                   skinType := or (prop parsed "skinType") (VStr "Normal");
                   brightness := or (prop parsed "brightness") (num 75);
                   hydration := or (prop parsed "hydration") (num 70);
                   symmetryScore := or (prop parsed "symmetry") (num 85);
                   glowScore := prop parsed "glowScore";
                   improvements := or (prop parsed "improvements") (VArr []);
                   recommendations := or (prop parsed "recommendations") (VArr []);
                   tips := or (or (prop parsed "tips") (prop parsed "improvements"))
                              (VArr []);
                   aiTips := or (or (prop parsed "tips") (prop parsed "improvements"))
                                (VArr []) |}
          else inl (Error "Invalid AI response format")
      end
  end.

Definition parseGlowAnalysis (aiResponse : string) : M GlowAnalysisResult :=
  try_catch (lift (parseGlowAnalysis_try aiResponse))
            (fun _ => getMockGlowAnalysis).

Definition outfit_format (parsed : value) : bool :=
  typeof_number (prop parsed "outfitScore") && isArray (prop parsed "tips").

Definition parseOutfitAnalysis_try (aiResponse : string) : Exn + OutfitAnalysisResult :=
  match parse aiResponse with
  | inl e => inl e
  | inr parsed =>
      match get parsed "outfitScore" with
      | inl e => inl e
      | inr _ =>
          if outfit_format parsed then
            inr {| outfitScore := prop parsed "outfitScore";
                   colorMatchScore := or (prop parsed "colorMatchScore") (num 75);
                   styleScore := or (prop parsed "styleScore") (num 75);
                   compatibleColors :=
                     or (prop parsed "compatibleColors")
                        (strings ["#FF6B98"; "#9D71E8"; "#4CAF50"]);
                   outfit_tips := prop parsed "tips";
                   eventAppropriate := not_false (prop parsed "eventAppropriate");
                   seasonalMatch := not_false (prop parsed "seasonalMatch") |}
          else inl (Error "Invalid AI response format")
      end
  end.

Definition parseOutfitAnalysis (aiResponse : string) : M OutfitAnalysisResult :=
  try_catch (lift (parseOutfitAnalysis_try aiResponse))
            (fun _ => getMockOutfitAnalysis).

Definition parseCoachingPlan_try (now : Z) (aiResponse goal : string)
    : Exn + GeneratedPlan :=
  match parse aiResponse with
  | inl e => inl e
  | inr parsed =>
      match get parsed "dailyTasks" with
      | inl e => inl e
      | inr _ =>
          if isArray (prop parsed "dailyTasks") && isArray (prop parsed "tips") then
            inr (Decoded ("plan-" +:+ pretty now) goal
                   (or (prop parsed "duration") (num 30))
                   (prop parsed "dailyTasks")
                   (prop parsed "tips")
                   (or (prop parsed "expectedResults") (VArr [])))
          else inl (Error "Invalid AI response format")
      end
  end.

Definition parseCoachingPlan (now : Z) (aiResponse goal : string) : M GeneratedPlan :=
  try_catch (lift (parseCoachingPlan_try now aiResponse goal))
            (fun _ => ret (Synthesized (getMockCoachingPlan now goal))).

(** Collaborator calls of the pipeline. *)
Definition uploadImageToS3 (env : Env) : M unit :=
  if upload_rejects env then throw (Error "Failed to upload image") else ret tt.

Definition convertImageToBase64 (env : Env) : M unit :=
  if base64_rejects env then throw (Error "FileSystem not available on this platform")
  else ret tt.

(** [analyzeImageWithVision] catches every failure and falls back to the
    mock vision data; its result only feeds the prompt. *)
Definition analyzeImageWithVision (env : Env) : M unit :=
  try_catch (convertImageToBase64 env) (fun _ => ret tt).

(** [await fetch(...)], the [response.ok] test and [response.json()]. *)
Definition fetch_completion (env : Env) : M string :=
  match llm env with
  | LlmRejects => throw (Error "Network request failed")
  | LlmNotOk statusText => throw (Error ("AI API error: " +:+ statusText))
  | LlmCompletion completion => ret completion
  end.

Definition getAIGlowAnalysis (env : Env) : M GlowAnalysisResult :=
  try_catch
    (_ <- convertImageToBase64 env ;;
     completion <- fetch_completion env ;;
     parseGlowAnalysis completion)
    (fun _ => getMockGlowAnalysis).

Definition analyzeGlow (env : Env) : M GlowAnalysisResult :=
  try_catch
    (_ <- uploadImageToS3 env ;;
     _ <- analyzeImageWithVision env ;;
     getAIGlowAnalysis env)
    (fun _ => getMockGlowAnalysis).

Definition getAIOutfitAnalysis (env : Env) : M OutfitAnalysisResult :=
  try_catch
    (_ <- convertImageToBase64 env ;;
     completion <- fetch_completion env ;;
     parseOutfitAnalysis completion)
    (fun _ => getMockOutfitAnalysis).

Definition analyzeOutfit (env : Env) : M OutfitAnalysisResult :=
  try_catch
    (_ <- uploadImageToS3 env ;;
     _ <- analyzeImageWithVision env ;;
     getAIOutfitAnalysis env)
    (fun _ => getMockOutfitAnalysis).

Definition generateCoachingPlan (env : Env) (now : Z) (goal : string)
    (currentGlowScore : Q) : M GeneratedPlan :=
  try_catch
    (completion <- fetch_completion env ;;
     parseCoachingPlan now completion goal)
    (fun _ => ret (Synthesized (getMockCoachingPlan now goal))).

End Decoders.

(** *** Vocabulary for the properties of results *)

(** A number between 0 and 100. *)
Definition score_in_range (v : value) : bool :=
  match v with
  | VNum q => Qle_bool 0 q && Qle_bool q 100
  | _ => false
  end.

Definition nonempty_list (v : value) : bool :=
  match v with
  | VArr (_ :: _) => true
  | _ => false
  end.

(** Neither [null] nor [undefined]. *)
Definition present (v : value) : bool :=
  match v with
  | VUndefined | VNull => false
  | _ => true
  end.

Definition glow_scores (r : GlowAnalysisResult) : list value :=
  [overallScore r; jawlineScore r; brightness r; hydration r;
   symmetryScore r; glowScore r].

Definition glow_lists (r : GlowAnalysisResult) : list value :=
  [improvements r; recommendations r; tips r; aiTips r].

Definition outfit_scores (r : OutfitAnalysisResult) : list value :=
  [outfitScore r; colorMatchScore r; styleScore r].

Definition outfit_lists (r : OutfitAnalysisResult) : list value :=
  [compatibleColors r; outfit_tips r].

(** A parse outcome that [parseGlowAnalysis] does not accept: a syntax
    error, or a value in neither format. *)
Definition glow_rejected (parsed : option value) : bool :=
  match parsed with
  | None => true
  | Some v => negb (comprehensive_format v) && negb (old_format v)
  end.

Definition outfit_rejected (parsed : option value) : bool :=
  match parsed with
  | None => true
  | Some v => negb (outfit_format v)
  end.








(** A [JSON.parse] known on one text only, for the examples. *)
Definition parses_as (text : string) (v : value) : string -> option value :=
  fun s => if bool_decide (s = text) then Some v else None.

Definition quoted (s : string) : string :=
  String (Ascii.ascii_of_nat 34) (s +:+ String (Ascii.ascii_of_nat 34) EmptyString).

(** The tasks of a plan that fall on [d], and their number by type. *)
Definition tasks_on (d : nat) (tasks : list DailyTask) : list DailyTask :=
  List.filter (fun t => (day t =? d)%nat) tasks.

Definition is_exercise (t : DailyTask) : bool :=
  match type t with exercise => true | _ => false end.

(** [generateCoachingPlan] falls back to the synthesized plan when the
    request fails or the [try] block of [parseCoachingPlan] throws. *)
Definition plan_fallback (JSON_parse : string -> option value) (env : Env)
    (now : Z) (goal : string) : bool :=
  match llm env with
  | LlmCompletion completion =>
      match parseCoachingPlan_try JSON_parse now completion goal with
      | inl _ => true
      | inr _ => false
      end
  | _ => true
  end.

(** *** Sample inputs *)

Definition sample_rng : Rng := {| draws := fun n => Z.of_nat n * 1234567891; cursor := 0 |}.



(** A completion in the comprehensive format with scores in range. *)
Definition glow_88_text : string :=
  "{" +:+ quoted "overallScore" +:+ ":88," +:+ quoted "skinTone" +:+ ":"
      +:+ quoted "Cool Ivory" +:+ "," +:+ quoted "aiTips" +:+ ":["
      +:+ quoted "Use sunscreen" +:+ "]," +:+ quoted "hydration" +:+ ":64}".

Definition glow_88_value : value :=
  VObj [("overallScore", num 88); ("skinTone", VStr "Cool Ivory");
        ("aiTips", VArr [VStr "Use sunscreen"]); ("hydration", num 64)].

(** A completion that is not JSON at all. *)
Definition prose_text : string := "I am sorry, I cannot analyze this image.".

Definition env_with (completion : string) : Env :=
  {| upload_rejects := false; base64_rejects := false;
     llm := LlmCompletion completion |}.

End AI.

(* --------------------------------------------------------------------- *)
(** ** The Date object                                                    *)
(* --------------------------------------------------------------------- *)

(** Time values are milliseconds since the epoch.  The day and calendar
    functions are those of the language specification (Day, DayFromYear,
    YearFromTime, MonthFromTime, DateFromTime, MakeDay, MakeDate, LocalTime,
    UTC).  The offset of local time is that of the host's zone and may
    change with the time of the year; the clipping of time values beyond
    8.64e15 is not modelled. *)
Module Calendar.

Definition msPerDay : Z := 86400000.

Definition Day (t : Z) : Z := t / msPerDay.

Definition TimeWithinDay (t : Z) : Z := t mod msPerDay.

Definition DaysInYear (y : Z) : Z :=
  if negb (y mod 4 =? 0) then 365
  else if negb (y mod 100 =? 0) then 366
  else if negb (y mod 400 =? 0) then 365
  else 366.

Definition DayFromYear (y : Z) : Z :=
  365 * (y - 1970) + (y - 1969) / 4 - (y - 1901) / 100 + (y - 1601) / 400.

(** The largest [y] with [DayFromYear y <= Day t]: an estimate from the
    mean length of a year, corrected by one year at most. *)
Definition YearFromDay (d : Z) : Z :=
  let y := 1970 + (400 * d) / 146097 in
  if d <? DayFromYear y then y - 1
  else if DayFromYear (y + 1) <=? d then y + 1
  else y.

Definition YearFromTime (t : Z) : Z := YearFromDay (Day t).

(** 1 in a leap year, 0 otherwise. *)
Definition LeapOfYear (y : Z) : Z := if DaysInYear y =? 366 then 1 else 0.

Definition InLeapYear (t : Z) : Z := LeapOfYear (YearFromTime t).

Definition DayWithinYear (t : Z) : Z := Day t - DayFromYear (YearFromTime t).

(** The number of the first day of month [m] (0 to 11) within its year. *)
Definition monthStart (leap m : Z) : Z :=
  match m with
  | 0 => 0
  | 1 => 31
  | 2 => 59 + leap
  | 3 => 90 + leap
  | 4 => 120 + leap
  | 5 => 151 + leap
  | 6 => 181 + leap
  | 7 => 212 + leap
  | 8 => 243 + leap
  | 9 => 273 + leap
  | 10 => 304 + leap
  | _ => 334 + leap
  end.

Definition MonthOfDay (leap d : Z) : Z :=
  if d <? 31 then 0
  else if d <? 59 + leap then 1
  else if d <? 90 + leap then 2
  else if d <? 120 + leap then 3
  else if d <? 151 + leap then 4
  else if d <? 181 + leap then 5
  else if d <? 212 + leap then 6
  else if d <? 243 + leap then 7
  else if d <? 273 + leap then 8
  else if d <? 304 + leap then 9
  else if d <? 334 + leap then 10
  else 11.

Definition MonthFromTime (t : Z) : Z :=
  MonthOfDay (InLeapYear t) (DayWithinYear t).

Definition DateFromTime (t : Z) : Z :=
  DayWithinYear t - monthStart (InLeapYear t) (MonthFromTime t) + 1.

(** The day number of the given year, month and date; months outside
    0..11 and dates outside the month carry over. *)
Definition MakeDay (year month date : Z) : Z :=
  let ym := year + month / 12 in
  let mn := month mod 12 in
  DayFromYear ym + monthStart (LeapOfYear ym) mn + date - 1.

Definition MakeDate (day time : Z) : Z := day * msPerDay + time.

(** The zone of the host: [LocalTZA t isUTC] is the offset of local time
    from UTC in milliseconds, at the UTC time value [t] when [isUTC] is
    true, and at the local time value [t] when it is false.  Which offset
    a local time that is skipped or repeated at a change gets is up to
    the zone. *)
Definition TimeZone : Type := Z -> bool -> Z.

Section LocalTime.
Variable LocalTZA : TimeZone.

Definition LocalTime (t : Z) : Z := t + LocalTZA t true.
Definition UTC (t : Z) : Z := t - LocalTZA t false.

Definition getFullYear (t : Z) : Z := YearFromTime (LocalTime t).
Definition getMonth (t : Z) : Z := MonthFromTime (LocalTime t).
Definition getDate (t : Z) : Z := DateFromTime (LocalTime t).

(** The setters return the new time value of the Date object. *)
Definition setDate (t date : Z) : Z :=
  let lt := LocalTime t in
  UTC (MakeDate (MakeDay (YearFromTime lt) (MonthFromTime lt) date)
                (TimeWithinDay lt)).

Definition setMonth (t month : Z) : Z :=
  let lt := LocalTime t in
  UTC (MakeDate (MakeDay (YearFromTime lt) month (DateFromTime lt))
                (TimeWithinDay lt)).

Definition setFullYear (t year : Z) : Z :=
  let lt := LocalTime t in
  UTC (MakeDate (MakeDay year (MonthFromTime lt) (DateFromTime lt))
                (TimeWithinDay lt)).

End LocalTime.

(** The length of month [m] (0 to 11). *)
Definition DaysInMonth (leap m : Z) : Z :=
  match m with
  | 1 => 28 + leap
  | 3 | 5 | 8 | 10 => 30
  | _ => 31
  end.

(** *** Vocabulary for the properties *)

(** The time value at which the local clock reads what it reads at [t],
    [k] whole days on. *)
Definition daysLater (tza : TimeZone) (t k : Z) : Z :=
  UTC tza (LocalTime tza t + k * msPerDay).

(** No two offsets of the zone are more than [drift] milliseconds apart. *)
Definition offsets_within (tza : TimeZone) (drift : Z) : Prop :=
  forall t isUTC t' isUTC', tza t isUTC - tza t' isUTC' <= drift.

(** A zone without changes of its offset. *)
Definition fixedOffset (offset : Z) : TimeZone := fun _ _ => offset.

(** Central European time around the end of daylight saving in 2023: two
    hours ahead of UTC until 29 October, 01:00 UTC, one hour ahead from
    then on; the repeated local hour counts as summer time.  The changes
    of other years are left out. *)
Definition europe_autumn_2023 : TimeZone :=
  fun t isUTC =>
    let change := 1698541200000 in
    if isUTC then (if t <? change then 7200000 else 3600000)
    else (if t <? change + 7200000 then 7200000 else 3600000).

End Calendar.

(* --------------------------------------------------------------------- *)
(** ** SubscriptionService                                                *)
(* --------------------------------------------------------------------- *)

Module Subscription.
Import JS Eff.
Local Open Scope eff_scope.

Inductive PlanDuration : Type := monthly | yearly.

Record SubscriptionPlan : Type := mkSubscriptionPlan {
  id : string;
  name : string;
  price : Q;
  currency : string;
  duration : PlanDuration;
  features : list string;
  trialDays : option Z
}.

Record SubscriptionStatus : Type := mkStatus {
  isActive : bool;
  plan : option SubscriptionPlan;
  expiresAt : option Z;
  isTrialActive : option bool;
  trialExpiresAt : option Z
}.

(** The record kept under [STORAGE_KEY]: what [subscribeToPlan] serializes,
    the date as the time value its ISO string denotes. *)
Record StoredSubscription : Type := mkStoredSubscription {
  stored_isActive : bool;
  stored_plan : option SubscriptionPlan;
  stored_expiresAt : option Z
}.

(** The record kept under [TRIAL_STORAGE_KEY]. *)
Record StoredTrial : Type := mkStoredTrial {
  planId : string;
  startedAt : Z;
  trial_expiresAt : Z;
  used : bool
}.

(** AsyncStorage maps keys to serialized items; an item is kept as the
    record it is the JSON text of. *)
Inductive Item : Type :=
| SubscriptionItem (r : StoredSubscription)
| TrialItem (r : StoredTrial).

Abbreviation Storage := (gmap string Item).
Abbreviation M := (Eff.M Storage).

Definition STORAGE_KEY : string := "subscription_status".
Definition TRIAL_STORAGE_KEY : string := "trial_status".

Definition premium_monthly : SubscriptionPlan :=
  {| id := "premium_monthly";
     name := "Premium Monthly";
     price := 999 # 100;
     currency := "USD";
     duration := monthly;
     trialDays := Some 7;
     features := ["Personalized AI Plans"; "Advanced Analysis"; "Unlimited Access";
                  "Premium Features"; "Priority Support"] |}.

Definition premium_yearly : SubscriptionPlan :=
  {| id := "premium_yearly";
     name := "Premium Yearly";
     price := 9999 # 100;
     currency := "USD";
     duration := yearly;
     trialDays := Some 7;
     features := ["Personalized AI Plans"; "Advanced Analysis"; "Unlimited Access";
                  "Premium Features"; "Priority Support"; "2 months free"] |}.

Definition plans : list SubscriptionPlan := [premium_monthly; premium_yearly].

(** [this.plans.find(p => p.id === planId)]. *)
Definition findPlan (planId : string) : option SubscriptionPlan :=
  List.find (fun p => bool_decide (id p = planId)) plans.

(** AsyncStorage; its calls are taken to succeed. *)
Definition getItem (key : string) : M (option Item) :=
  fun s => (inr (s !! key), s).

Definition setItem (key : string) (item : Item) : M unit :=
  fun s => (inr tt, <[key := item]> s).

Definition removeItem (key : string) : M unit :=
  fun s => (inr tt, delete key s).

(** [JSON.parse] of a stored item, read as the record the caller expects;
    an item of the other shape counts as text that does not parse. *)
Definition parseSubscription (item : Item) : Exn + StoredSubscription :=
  match item with
  | SubscriptionItem r => inr r
  | TrialItem _ => inl SyntaxError
  end.

Definition parseTrial (item : Item) : Exn + StoredTrial :=
  match item with
  | TrialItem r => inr r
  | SubscriptionItem _ => inl SyntaxError
  end.

(** The result of the three operations. *)
Record Result : Type := mkResult {
  success : bool;
  error : option string
}.

Definition trial_used_error : string :=
  "Free trial has already been used. Please subscribe to continue using premium features.".

(** The remote billing call: it returns, or throws (5% of the calls in the
    simulation); the draw is an input. *)
Definition simulateSubscriptionAPI (api_ok : bool) (action : string) : M unit :=
  if api_ok then ret tt
  else throw (Error ("Simulated " +:+ action +:+ " API failure")).

Definition inactive : SubscriptionStatus :=
  {| isActive := false; plan := None; expiresAt := None;
     isTrialActive := None; trialExpiresAt := None |}.

(** [now_trial] and [now_paid] are the readings of the two [new Date()]. *)
Definition getSubscriptionStatus (now_trial now_paid : Z) : M SubscriptionStatus :=
  try_catch
    (stored <- getItem STORAGE_KEY ;;
     trialStored <- getItem TRIAL_STORAGE_KEY ;;
     status <- match stored with
               | Some item =>
                   parsed <- lift (parseSubscription item) ;;
                   ret {| isActive := stored_isActive parsed;
                          plan := stored_plan parsed;
                          expiresAt := stored_expiresAt parsed;
                          isTrialActive := None;
                          trialExpiresAt := None |}
               | None => ret inactive
               end ;;
     status <- match trialStored with
               | Some item =>
                   trialData <- lift (parseTrial item) ;;
                   let trialExpiresAt := trial_expiresAt trialData in
                   let isTrialActive := now_trial <? trialExpiresAt in
                   ret {| isActive :=
                            if isTrialActive && negb (isActive status) then true
                            else isActive status;
                          plan := plan status;
                          expiresAt := expiresAt status;
                          isTrialActive := Some isTrialActive;
                          trialExpiresAt := Some trialExpiresAt |}
               | None => ret status
               end ;;
     ret {| isActive :=
              match expiresAt status with
              | Some e => if e <=? now_paid then false else isActive status
              | None => isActive status
              end;
            plan := plan status;
            expiresAt := expiresAt status;
            isTrialActive := isTrialActive status;
            trialExpiresAt := trialExpiresAt status |})
    (fun _ => ret inactive).

Section LocalTime.
Variable tza : Calendar.TimeZone.

(** [now] is the reading of [new Date()] that [trialExpiresAt] starts
    from, [now_started] the one stored as [startedAt]. *)
Definition startFreeTrial (planId : string) (api_ok : bool)
    (now now_started : Z) : M Result :=
  try_catch
    (existingTrial <- getItem TRIAL_STORAGE_KEY ;;
     alreadyUsed <- match existingTrial with
                    | Some item =>
                        trialData <- lift (parseTrial item) ;;
                        ret (used trialData)
                    | None => ret false
                    end ;;
     if alreadyUsed : bool then
       ret {| success := false; error := Some trial_used_error |}
     else
       match findPlan planId with
       | None =>
           ret {| success := false;
                  error := Some "Trial not available for this plan." |}
       | Some plan =>
           match trialDays plan with
           | None =>
               ret {| success := false;
                      error := Some "Trial not available for this plan." |}
           | Some days =>
               if days =? 0 then
                 ret {| success := false;
                        error := Some "Trial not available for this plan." |}
               else
                 _ <- simulateSubscriptionAPI api_ok "start_trial" ;;
                 let trialExpiresAt :=
                   Calendar.setDate tza now (Calendar.getDate tza now + days) in
                 let trialStatus :=
                   {| planId := planId;
                      startedAt := now_started;
                      trial_expiresAt := trialExpiresAt;
                      used := true |} in
                 _ <- setItem TRIAL_STORAGE_KEY (TrialItem trialStatus) ;;
                 ret {| success := true; error := None |}
           end
       end)
    (fun _ =>
       ret {| success := false;
              error := Some "Failed to start free trial. Please try again." |}).

Definition subscribeToPlan (planId : string) (api_ok : bool) (now : Z) : M Result :=
  try_catch
    (match findPlan planId with
     | None => ret {| success := false; error := Some "Plan not found." |}
     | Some plan =>
         _ <- simulateSubscriptionAPI api_ok "subscribe" ;;
         let expiresAt :=
           match duration plan with
           | monthly => Calendar.setMonth tza now (Calendar.getMonth tza now + 1)
           | yearly => Calendar.setFullYear tza now (Calendar.getFullYear tza now + 1)
           end in
         _ <- setItem STORAGE_KEY
                (SubscriptionItem {| stored_isActive := true;
                                     stored_plan := Some plan;
                                     stored_expiresAt := Some expiresAt |}) ;;
         ret {| success := true; error := None |}
     end)
    (fun _ =>
       ret {| success := false;
              error := Some "Subscription failed. Please try again." |}).

End LocalTime.

Definition cancelSubscription (api_ok : bool) : M Result :=
  try_catch
    (_ <- simulateSubscriptionAPI api_ok "cancel" ;;
     _ <- removeItem STORAGE_KEY ;;
     ret {| success := true; error := None |})
    (fun _ =>
       ret {| success := false;
              error := Some "Failed to cancel subscription. Please try again." |}).

Definition hasPremiumAccess (now_trial now_paid : Z) : M bool :=
  status <- getSubscriptionStatus now_trial now_paid ;;
  ret (isActive status).

(** *** Sequences of calls *)

Inductive Call : Type :=
| CallStartFreeTrial (planId : string) (api_ok : bool) (now now_started : Z)
| CallSubscribeToPlan (planId : string) (api_ok : bool) (now : Z)
| CallCancelSubscription (api_ok : bool)
| CallGetSubscriptionStatus (now_trial now_paid : Z).

(** The storage a call leaves behind. *)
Definition after (tza : Calendar.TimeZone) (c : Call) (s : Storage) : Storage :=
  match c with
  | CallStartFreeTrial planId api_ok now now_started =>
      snd (startFreeTrial tza planId api_ok now now_started s)
  | CallSubscribeToPlan planId api_ok now =>
      snd (subscribeToPlan tza planId api_ok now s)
  | CallCancelSubscription api_ok => snd (cancelSubscription api_ok s)
  | CallGetSubscriptionStatus now_trial now_paid =>
      snd (getSubscriptionStatus now_trial now_paid s)
  end.

Definition after_all (tza : Calendar.TimeZone) (calls : list Call) (s : Storage) : Storage :=
  fold_left (fun s c => after tza c s) calls s.

(** *** Vocabulary for the properties *)

(** The paid record and the trial record a storage holds. *)
Definition holds (s : Storage) (paid : option StoredSubscription)
    (trial : option StoredTrial) : Prop :=
  s !! STORAGE_KEY = SubscriptionItem <$> paid
  /\ s !! TRIAL_STORAGE_KEY = TrialItem <$> trial.

Definition paid_flag (paid : option StoredSubscription) : bool :=
  match paid with
  | Some r => stored_isActive r
  | None => false
  end.

(** The paid record carries an expiry that is not in the future. *)
Definition paid_expired (paid : option StoredSubscription) (now : Z) : bool :=
  match paid with
  | Some r => match stored_expiresAt r with
              | Some e => e <=? now
              | None => false
              end
  | None => false
  end.

Definition trial_active (trial : option StoredTrial) (now : Z) : bool :=
  match trial with
  | Some t => now <? trial_expiresAt t
  | None => false
  end.

(** [isActive] in the words of the specification: the paid expiry is unset
    or in the future, or the trial expiry is in the future. *)
Definition isActive_as_specified (paid : option StoredSubscription)
    (trial : option StoredTrial) (now : Z) : bool :=
  negb (paid_expired paid now) || trial_active trial now.

(** The item under the trial key, if any, is a trial record. *)
Definition trial_slot_ok (s : Storage) : bool :=
  match s !! TRIAL_STORAGE_KEY with
  | Some (SubscriptionItem _) => false
  | _ => true
  end.

End Subscription.

(* --------------------------------------------------------------------- *)
(** ** NetworkService: the public methods                                 *)
(* --------------------------------------------------------------------- *)

Module NetworkClient.
Import Network.

(** How a public method settles: with the parsed body, or with what
    [makeRequest] or [response.json()] threw. *)
Inductive Failure : Type :=
| RequestFailed (e : option NetworkError)
| BodyFailed (e : JS.Exn).

Section WithConfig.

Variables (API_TIMEOUT : Z) (API_RETRY_ATTEMPTS : nat) (API_RETRY_DELAY : Z).
Variable USER_AGENT : string.
Variable RORK_AI_BASE_URL : string.
Variable net : nat -> FetchOutcome.

(** [response.json()]: the parsed body of a response, or what parsing it
    throws. *)
Variable json : Response -> JS.Exn + JS.value.

Definition send (url : string) (options : RequestInit) (config : RequestConfig)
    : (Failure + JS.value) * list Event :=
  let res := makeRequest API_TIMEOUT API_RETRY_ATTEMPTS API_RETRY_DELAY
               USER_AGENT net url options config in
  match fst res with
  | Resolved r =>
      match json r with
      | inr v => (inr v, snd res)
      | inl e => (inl (BodyFailed e), snd res)
      end
  | Rejected e => (inl (RequestFailed e), snd res)
  end.

Definition get (url : string) (config : option RequestConfig)
    : (Failure + JS.value) * list Event :=
  send url {| method := "GET"; body := NoBody |} (default noConfig config).

Definition put (url : string) (stringified : string)
    (config : option RequestConfig) : (Failure + JS.value) * list Event :=
  send url {| method := "PUT"; body := TextBody stringified |}
    (default noConfig config).

Definition delete (url : string) (config : option RequestConfig)
    : (Failure + JS.value) * list Event :=
  send url {| method := "DELETE"; body := NoBody |} (default noConfig config).

Definition healthCheck : bool * list Event :=
  let res := get (RORK_AI_BASE_URL +:+ "/health")
               (Some {| timeout := Some 5000; retries := Some 1%nat;
                        retryDelay := None; headers := None; skipAuth := None |}) in
  match fst res with
  | inr _ => (true, snd res)
  | inl _ => (false, snd res)
  end.

End WithConfig.

(** The fetch of an attempt resolves with a response whose [ok] is true. *)
Definition attempt_succeeds (o : FetchOutcome) : bool :=
  match o with
  | Responds st txt => ok {| resp_status := st; resp_statusText := txt |}
  | _ => false
  end.

Definition response_of (o : FetchOutcome) : option Response :=
  match o with
  | Responds st txt => Some {| resp_status := st; resp_statusText := txt |}
  | _ => None
  end.

Fixpoint sum_Z (l : list Z) : Z :=
  match l with
  | [] => 0
  | x :: l' => x + sum_Z l'
  end.

End NetworkClient.

(* --------------------------------------------------------------------- *)
(** ** SubscriptionService: queries                                       *)
(* --------------------------------------------------------------------- *)

Module SubscriptionQueries.
Import JS Eff Subscription.
Local Open Scope eff_scope.

Definition getAvailablePlans : list SubscriptionPlan := plans.

Definition getPlan (planId : string) : option SubscriptionPlan := findPlan planId.

(** [Math.ceil(diffTime / (1000 * 60 * 60 * 24))]. *)
Definition ceil_days (diffTime : Z) : Z := Qceiling (Qmake diffTime 86400000).

(** [now] is the reading of the [new Date()] of the method itself, after
    the two of [getSubscriptionStatus]. *)
Definition getRemainingTrialDays (now_trial now_paid now : Z) : M Z :=
  status <- getSubscriptionStatus now_trial now_paid ;;
  match isTrialActive status, trialExpiresAt status with
  | Some true, Some trialExpiresAt =>
      let diffTime := trialExpiresAt - now in
      let diffDays := ceil_days diffTime in
      ret (Z.max 0 diffDays)
  | _, _ => ret 0
  end.

(** The shape of what the service itself writes: a paid record carries the
    flag, a catalog plan and an expiry; a trial record is marked used. *)
Definition written_by_service (s : Storage) : Prop :=
  (s !! STORAGE_KEY = None
   \/ exists p e, In p plans
        /\ s !! STORAGE_KEY
           = Some (SubscriptionItem {| stored_isActive := true;
                                       stored_plan := Some p;
                                       stored_expiresAt := Some e |}))
  /\ (s !! TRIAL_STORAGE_KEY = None
      \/ exists t, s !! TRIAL_STORAGE_KEY = Some (TrialItem t)
           /\ used t = true
           /\ findPlan (planId t) <> None).

End SubscriptionQueries.

(* --------------------------------------------------------------------- *)
(** ** AIService: hashString                                              *)
(* --------------------------------------------------------------------- *)

(** A string is taken as the sequence of its code units; for the strings of
    this development these are the bytes (ASCII text). *)
Module Hash.

(** [ToInt32]: wrap into the signed 32-bit range. *)
Definition toInt32 (z : Z) : Z := (z + 2 ^ 31) mod 2 ^ 32 - 2 ^ 31.

Definition charCodes (str : string) : list Z :=
  map (fun a => Z.of_nat (Ascii.nat_of_ascii a)) (list_ascii_of_string str).

(** One iteration of the loop:
    [hash = ((hash << 5) - hash) + char; hash = hash & hash]. *)
Definition hashStep (hash char : Z) : Z :=
  let hash := (toInt32 (Z.shiftl (toInt32 hash) 5) - hash) + char in
  toInt32 (Z.land (toInt32 hash) (toInt32 hash)).

Definition hashCodes (codes : list Z) : Z := fold_left hashStep codes 0.

Definition digit36 (d : Z) : Ascii.ascii :=
  if d <? 10 then Ascii.ascii_of_nat (Z.to_nat (48 + d))
  else Ascii.ascii_of_nat (Z.to_nat (87 + d)).

(** [n.toString(36)] for an integer [n >= 0]; [fuel] bounds the number of
    digits. *)
Fixpoint toString36_go (fuel : nat) (n : Z) (acc : string) : string :=
  let acc' := String (digit36 (n mod 36)) acc in
  match fuel with
  | O => acc'
  | S fuel' => if n <? 36 then acc' else toString36_go fuel' (n / 36) acc'
  end.

Definition toString36 (n : Z) : string :=
  toString36_go (Z.to_nat (Z.log2 n)) n EmptyString.

Definition hashString (str : string) : string :=
  toString36 (Z.abs (hashCodes (charCodes str))).

(** The polynomial the loop evaluates, before wrapping. *)
Fixpoint poly31 (acc : Z) (codes : list Z) : Z :=
  match codes with
  | [] => acc
  | c :: rest => poly31 (31 * acc + c) rest
  end.

(** The value of a digit of base 36, and of a string of such digits. *)
Definition value36 (a : Ascii.ascii) : Z :=
  let n := Z.of_nat (Ascii.nat_of_ascii a) in
  if n <? 58 then n - 48 else n - 87.

Definition parse36 (s : string) : Z :=
  fold_left (fun acc a => 36 * acc + value36 a) (list_ascii_of_string s) 0.

Definition is_digit36 (a : Ascii.ascii) : bool :=
  let n := Z.of_nat (Ascii.nat_of_ascii a) in
  ((48 <=? n) && (n <=? 57)) || ((97 <=? n) && (n <=? 122)).

(** [ds] are the digits of [n] in base 36, most significant first, with
    no leading zero. *)
Definition digits_of (n : Z) (ds : list Ascii.ascii) : Prop :=
  Forall (fun a => is_digit36 a = true) ds
  /\ (forall a, fold_left (fun acc c => 36 * acc + value36 c) ds a
                = a * 36 ^ Z.of_nat (length ds) + n)
  /\ (1 <= length ds)%nat
  /\ (n < 36 ^ Z.of_nat (length ds))
  /\ (36 ^ (Z.of_nat (length ds) - 1) <= n \/ n = 0 /\ length ds = 1%nat).

End Hash.

(* ===================================================================== *)
(** * Part II.  Theorems                                                  *)
(* ===================================================================== *)

(* --------------------------------------------------------------------- *)
(** ** NetworkService: retry and backoff                                  *)
(* --------------------------------------------------------------------- *)

Section NetworkFacts.
Import Network.

Variables (API_TIMEOUT : Z) (API_RETRY_ATTEMPTS : nat) (API_RETRY_DELAY : Z).
Variable USER_AGENT : string.

Lemma server_error_fails o : server_error o = true -> attempt_fails o = true.
Proof.
  destruct o as [st txt| |]; simpl; try discriminate.
  intros H. apply Z.leb_le in H. unfold ok; simpl.
  destruct (Z.leb_spec st 299) as [Hle|Hgt]; [lia|].
  now rewrite andb_false_r.
Qed.

(** Whatever reaches the [catch] block is classified as retryable: the
    error is rebuilt there without its status. *)
Lemma catch_classify_retryable t : isRetryable (catch_classify t) = true.
Proof. destruct t; reflexivity. Qed.

Lemma fetches_app evs evs' : fetches (evs ++ evs') = fetches evs ++ fetches evs'.
Proof. unfold fetches. apply omap_app. Qed.

Lemma delays_app evs evs' : delays (evs ++ evs') = delays evs ++ delays evs'.
Proof. unfold delays. apply omap_app. Qed.

Lemma fetches_fetch n r : fetches [EvFetch n r] = [(n, r)].
Proof. reflexivity. Qed.

Lemma delays_fetch n r : delays [EvFetch n r] = [].
Proof. reflexivity. Qed.

Lemma fetches_backoff r d k : forall a,
  fetches (backoff_trace r d a k) = map (fun n => (n, r)) (seq a k).
Proof.
  induction k as [|k IH]; intros a; [reflexivity|].
  unfold backoff_trace in *; simpl. f_equal. apply IH.
Qed.

Lemma delays_backoff r d k : forall a,
  delays (backoff_trace r d a k) = map (fun n => d * 2 ^ Z.of_nat n) (seq a k).
Proof.
  induction k as [|k IH]; intros a; [reflexivity|].
  unfold backoff_trace in *; simpl. f_equal. apply IH.
Qed.

Section LoopFacts.
Variable net : nat -> FetchOutcome.
Variables (url : string) (options : RequestInit).
Variables (timeout_ms : Z) (retries_n : nat) (retryDelay_ms : Z).
Variable requestHeaders : gmap string string.

Let req := request url options timeout_ms requestHeaders.
Let run := attempts net url options timeout_ms retries_n retryDelay_ms requestHeaders.

(** One failed attempt that is not the last: the loop sleeps and goes on. *)
Lemma attempts_step_fail k a last :
  attempt_fails (net a) = true -> a <> retries_n ->
  exists e, run (S k) a last =
    (fst (run k (S a) (Some e)),
     EvFetch a req :: EvDelay (retryDelay_ms * 2 ^ Z.of_nat a)
       :: snd (run k (S a) (Some e))).
Proof.
  intros Hfail Hne. subst run. cbn [attempts]. unfold try_block.
  assert (Hneq : (a =? retries_n)%nat = false) by now apply Nat.eqb_neq.
  destruct (net a) as [st txt|name msg|]; simpl in Hfail.
  - rewrite Hfail. rewrite Hneq, orb_false_r.
    destruct (negb (isRetryable _)) eqn:Hr.
    + rewrite catch_classify_retryable. simpl.
      eexists. reflexivity.
    + eexists. reflexivity.
  - rewrite catch_classify_retryable, Hneq. simpl.
    eexists. reflexivity.
  - rewrite catch_classify_retryable, Hneq. simpl.
    eexists. reflexivity.
Qed.

(** The last attempt fails: its error leaves the loop. *)
Lemma attempts_last_fail k last :
  attempt_fails (net retries_n) = true ->
  run (S k) retries_n last =
    (Rejected (Some (propagated (net retries_n))), [EvFetch retries_n req]).
Proof.
  intros Hfail. subst run. cbn [attempts]. unfold try_block.
  destruct (net retries_n) as [st txt|name msg|]; simpl in Hfail.
  - rewrite Hfail, Nat.eqb_refl, orb_true_r. reflexivity.
  - simpl. rewrite Nat.eqb_refl. reflexivity.
  - simpl. rewrite Nat.eqb_refl. reflexivity.
Qed.

(** When every attempt from [a] on fails, the loop runs to the last one. *)
Lemma attempts_all_fail k : forall a last,
  (a + k = retries_n)%nat ->
  (forall n, (a <= n <= retries_n)%nat -> attempt_fails (net n) = true) ->
  run (S k) a last =
    (Rejected (Some (propagated (net retries_n))),
     backoff_trace req retryDelay_ms a k ++ [EvFetch retries_n req]).
Proof.
  induction k as [|k IH]; intros a last Hak Hall.
  - replace a with retries_n by lia. apply attempts_last_fail. apply Hall. lia.
  - destruct (attempts_step_fail (S k) a last) as [e He]; [apply Hall; lia | lia |].
    rewrite He, (IH (S a) (Some e)); [reflexivity | lia |].
    intros n Hn. apply Hall. lia.
Qed.

(** Every fetch of the loop is issued with the same request, and the first
    event of a call is the fetch of attempt 0. *)
Lemma attempts_requests k : forall a last,
  Forall (fun nr => snd nr = req) (fetches (snd (run k a last))).
Proof.
  induction k as [|k IH]; intros a last; subst run; cbn [attempts].
  - constructor.
  - destruct (try_block _ _ _ _) as [r|e ms|t]; simpl.
    + repeat constructor.
    + constructor; [reflexivity | apply IH].
    + destruct (negb _ || _); simpl.
      * repeat constructor.
      * constructor; [reflexivity | apply IH].
Qed.

Lemma attempts_first k a last :
  exists evs, snd (run (S k) a last) = EvFetch a req :: evs.
Proof.
  subst run; cbn [attempts].
  destruct (try_block _ _ _ _) as [r|e ms|t]; simpl; eauto.
  destruct (negb _ || _); simpl; eauto.
Qed.

End LoopFacts.

(** C4.  When every attempt of a call is answered with an HTTP status of
    500 or more, [makeRequest] issues exactly [retries + 1] fetches
    (attempts 0 to [retries], in order), sleeps [retryDelay * 2^n] between
    attempt [n] and attempt [n+1], and then rejects with the error built
    from the last response. *)
Theorem makeRequest_server_errors_exhaust_retries
    (net : nat -> FetchOutcome) (url : string) (options : RequestInit)
    (config : RequestConfig) :
  let n := default API_RETRY_ATTEMPTS (retries config) in
  let d := default API_RETRY_DELAY (retryDelay config) in
  let res := makeRequest API_TIMEOUT API_RETRY_ATTEMPTS API_RETRY_DELAY
               USER_AGENT net url options config in
  (forall k, (k <= n)%nat -> server_error (net k) = true) ->
  length (fetches (snd res)) = S n /\
  map fst (fetches (snd res)) = seq 0 (S n) /\
  delays (snd res) = map (fun k => d * 2 ^ Z.of_nat k) (seq 0 n) /\
  (exists r, snd res = backoff_trace r d 0 n ++ [EvFetch n r]) /\
  fst res = Rejected (Some (propagated (net n))).
Proof.
  intros n d res Hall. subst res. unfold makeRequest. fold n. fold d.
  rewrite (attempts_all_fail net url options _ n d _ n 0%nat None);
    [| lia | intros k Hk; apply server_error_fails, Hall; lia].
  cbn [fst snd].
  rewrite fetches_app, delays_app, fetches_backoff, delays_backoff.
  rewrite fetches_fetch, delays_fetch, length_app, length_map, length_seq.
  rewrite map_app, map_map. cbn [map fst length].
  repeat split.
  - lia.
  - rewrite map_id, seq_S. reflexivity.
  - apply app_nil_r.
  - eexists. reflexivity.
Qed.

(** C5 (the code departs from the claim).  A response with status 400,
    401, 403 or 404 is classified as not retryable by [createError], yet
    the [throw] sits inside the [try] block: the [catch] block rebuilds the
    error without its status, which makes it retryable.  With
    [retries = r + 1] and a server that always answers with such a status,
    [makeRequest] issues [r + 2] fetches, backoff delays included. *)
Theorem makeRequest_retries_client_errors
    (r : nat) (txt url : string) (options : RequestInit)
    (t d : option Z) (h : option (gmap string string)) (sk : option bool) :
  Forall (fun st =>
    let config := {| timeout := t; retries := Some (S r); retryDelay := d;
                     headers := h; skipAuth := sk |} in
    let res := makeRequest API_TIMEOUT API_RETRY_ATTEMPTS API_RETRY_DELAY
                 USER_AGENT (fun _ => Responds st txt) url options config in
    isRetryable (createError ("HTTP " +:+ pretty st +:+ ": " +:+ txt)
                             (Some st) None) = false /\
    length (fetches (snd res)) = S (S r) /\
    delays (snd res) =
      map (fun k => default API_RETRY_DELAY d * 2 ^ Z.of_nat k) (seq 0 (S r)))
    [400; 401; 403; 404].
Proof.
  repeat constructor; cbn zeta; unfold makeRequest; cbn [retries retryDelay default];
    rewrite (attempts_all_fail _ url options _ (S r) _ _ (S r) 0%nat None)
      by (try lia; intros; reflexivity);
    cbn [fst snd];
    rewrite ?fetches_app, ?delays_app, ?fetches_backoff, ?delays_backoff;
    rewrite ?fetches_fetch, ?delays_fetch;
    rewrite ?length_app, ?length_map, ?length_seq; cbn [length];
    try lia; apply app_nil_r.
Qed.

(** Whatever headers a caller hands to [makeRequest], [baseHeaders] is
    spread under them: the request of every fetch has a Content-Type. *)
Lemma makeRequest_content_type
    (net : nat -> FetchOutcome) (url : string) (options : RequestInit)
    (config : RequestConfig) :
  let res := makeRequest API_TIMEOUT API_RETRY_ATTEMPTS API_RETRY_DELAY
               USER_AGENT net url options config in
  fetches (snd res) <> [] /\
  Forall (fun nr => is_Some (req_headers (snd nr) !! "Content-Type"))
         (fetches (snd res)) /\
  Forall (fun nr => opt_headers (headers config) !! "Content-Type" = None ->
                    req_headers (snd nr) !! "Content-Type" = Some "application/json")
         (fetches (snd res)).
Proof.
  intros res. subst res. unfold makeRequest.
  set (hs := spread (baseHeaders USER_AGENT) (opt_headers (headers config))).
  assert (Hbase : baseHeaders USER_AGENT !! "Content-Type" = Some "application/json")
    by (unfold baseHeaders; apply lookup_insert_eq).
  assert (Hsome : is_Some (hs !! "Content-Type")).
  { subst hs. unfold spread. apply lookup_union_is_Some. right. rewrite Hbase. eauto. }
  assert (Hnone : opt_headers (headers config) !! "Content-Type" = None ->
                  hs !! "Content-Type" = Some "application/json").
  { intros Hc. subst hs. unfold spread.
    rewrite lookup_union_r by exact Hc. exact Hbase. }
  split; [|split].
  - match goal with
    | |- fetches (snd (attempts ?n ?u ?o ?t ?r ?d ?h (S ?k) ?a ?l)) <> _ =>
        destruct (attempts_first n u o t r d h k a l) as [evs ->]
    end.
    discriminate.
  - eapply Forall_impl; [apply attempts_requests|].
    intros [n rq] Hrq; simpl in *; subst rq. exact Hsome.
  - eapply Forall_impl; [apply attempts_requests|].
    intros [n rq] Hrq; simpl in *; subst rq. exact Hnone.
Qed.

(** C6 (the code departs from the claim).  [uploadFile], and [post] with a
    [FormData] body, pass no Content-Type of their own, but [makeRequest]
    spreads [baseHeaders] under the headers it is given: every fetch of an
    upload carries a Content-Type header, and with no caller-supplied
    headers it is [application/json]. *)
Theorem uploadFile_sends_content_type
    (net : nat -> FetchOutcome) (url : string) (file : Upload) (fd : FormData)
    (config : option RequestConfig) :
  let up := uploadFile API_TIMEOUT API_RETRY_ATTEMPTS API_RETRY_DELAY
              USER_AGENT net url file config in
  let po := post API_TIMEOUT API_RETRY_ATTEMPTS API_RETRY_DELAY
              USER_AGENT net url (DataForm fd) config in
  let sent := fetches (snd up) ++ fetches (snd po) in
  fetches (snd up) <> [] /\ fetches (snd po) <> [] /\
  Forall (fun nr => is_Some (req_headers (snd nr) !! "Content-Type")) sent /\
  Forall (fun nr => config_headers config !! "Content-Type" = None ->
                    req_headers (snd nr) !! "Content-Type" = Some "application/json")
         sent.
Proof.
  intros up po sent. subst up po sent. unfold uploadFile, post.
  assert (Hh : forall c : RequestConfig,
             headers c = Some (spread ∅ (config_headers config)) ->
             opt_headers (headers c) = config_headers config).
  { intros c ->. unfold spread, opt_headers. simpl.
    apply map_union_empty. }
  match goal with
  | |- context [makeRequest ?t ?n ?d ?ua ?nt ?u ?o1 ?c1] =>
      match goal with
      | |- context [makeRequest t n d ua nt u {| method := "POST"; body := FormBody fd |} ?c2] =>
          destruct (makeRequest_content_type nt u o1 c1) as (U1 & U2 & U3);
          destruct (makeRequest_content_type nt u
                      {| method := "POST"; body := FormBody fd |} c2) as (P1 & P2 & P3)
      end
  end.
  cbn zeta in *. rewrite Hh in U3, P3 by reflexivity.
  repeat split; try assumption; apply Forall_app; split; assumption.
Qed.

End NetworkFacts.

(** C4 at a concrete call: three retries, base delay 1000 ms, and a server
    that always answers 503. *)
Lemma makeRequest_server_errors_witness :
  let res := Network.makeRequest 30000 3%nat 1000 "GlowCheck/1.0.0"
               (fun _ => Network.Responds 503 "Service Unavailable")
               "https://toolkit.rork.com/health"
               {| Network.method := "GET"; Network.body := Network.NoBody |}
               Network.noConfig in
  length (Network.fetches (snd res)) = 4%nat /\
  Network.delays (snd res) = [1000; 2000; 4000].
Proof.
  destruct (makeRequest_server_errors_exhaust_retries 30000 3%nat 1000
              "GlowCheck/1.0.0"
              (fun _ => Network.Responds 503 "Service Unavailable")
              "https://toolkit.rork.com/health"
              {| Network.method := "GET"; Network.body := Network.NoBody |}
              Network.noConfig (fun k _ => eq_refl)) as (H1 & _ & H3 & _).
  split; [exact H1 | exact H3].
Defined.

(** The classification of [isRetryableError]. *)
Example isRetryableError_table :
  map (fun st => Network.isRetryableError (Some st) None)
      [400; 401; 403; 404; 408; 429; 500; 503]
  = [false; false; false; false; true; true; true; true]
  /\ Network.isRetryableError None None = true
  /\ Network.isRetryableError (Some 404) (Some "NETWORK_ERROR") = true.
Proof. repeat split; reflexivity. Qed.

(** One retry allowed, a server that always answers 404: two fetches, one
    second apart, and the error that leaves the call has lost its status. *)
Example makeRequest_404_is_fetched_twice :
  let res := Network.makeRequest 30000 3%nat 1000 "GlowCheck/1.0.0"
               (fun _ => Network.Responds 404 "Not Found")
               "https://toolkit.rork.com/missing"
               {| Network.method := "GET"; Network.body := Network.NoBody |}
               {| Network.timeout := None; Network.retries := Some 1%nat;
                  Network.retryDelay := None; Network.headers := None;
                  Network.skipAuth := None |} in
  map fst (Network.fetches (snd res)) = [0%nat; 1%nat]
  /\ Network.delays (snd res) = [1000]
  /\ fst res = Network.Rejected
                 (Some {| Network.message := "HTTP 404: Not Found";
                          Network.status := None;
                          Network.code := Some "NETWORK_ERROR";
                          Network.isNetworkError := true;
                          Network.isRetryable := true |}).
Proof. repeat split; vm_compute; reflexivity. Qed.

(* --------------------------------------------------------------------- *)
(** ** AIService: mock generators and decoders                            *)
(* --------------------------------------------------------------------- *)

Section AIFacts.
Import JS Eff AI.

(** [Math.floor(Math.random() * n)] lies in [0, n). *)
Lemma floor_random_range (a n : Z) :
  0 < n ->
  0 <= Math_floor (Qmake (a mod 2 ^ 53) (2 ^ 53) * inject_Z n) < n.
Proof.
  intros Hn. unfold Math_floor, Qfloor, Qmult, inject_Z. cbn [Qnum Qden].
  rewrite Pos.mul_1_r, Pos2Z.inj_pow.
  change (Z.pos 2) with 2. change (Z.pos 53) with 53.
  pose proof (Z.mod_pos_bound a (2 ^ 53) ltac:(lia)) as [Hlo Hhi].
  remember (a mod 2 ^ 53) as m. remember (2 ^ 53) as P.
  assert (HP : 0 < P) by (subst P; lia).
  split.
  - apply Z.div_pos; nia.
  - apply Z.div_lt_upper_bound; nia.
Qed.

Lemma random_below_run (n : Z) (g : Rng) :
  0 < n ->
  exists k, random_below n g =
              (inr k, {| draws := draws g; cursor := S (cursor g) |})
            /\ 0 <= k < n.
Proof.
  intros Hn. eexists. split; [reflexivity|]. now apply floor_random_range.
Qed.

Lemma score_in_range_num (z : Z) :
  0 <= z <= 100 -> score_in_range (num z) = true.
Proof.
  intros [Hlo Hhi]. unfold score_in_range, num.
  apply andb_true_intro.
  split; apply Qle_bool_iff; unfold Qle; simpl; lia.
Qed.

(** Running a bind whose first action returns. *)
Lemma bind_run {A B} (m : AI.M A) (f : A -> AI.M B) g a g' :
  m g = (inr a, g') -> Eff.bind m f g = f a g'.
Proof. intros H. unfold Eff.bind. now rewrite H. Qed.

Ltac step_random :=
  match goal with
  | |- context [Eff.bind (random_below ?n) ?f ?g] =>
      let k := fresh "k" in
      let Hk := fresh "Hk" in
      let Hr := fresh "Hr" in
      destruct (random_below_run n g ltac:(simpl; lia)) as (k & Hr & Hk);
      rewrite (bind_run (random_below n) f g k _ Hr); clear Hr; cbv beta
  end.

(** The mock face analysis always returns, with every score in range and
    every list non-empty. *)
Lemma getMockGlowAnalysis_ok (g : Rng) :
  exists r g', getMockGlowAnalysis g = (inr r, g')
    /\ forallb score_in_range (glow_scores r) = true
    /\ forallb nonempty_list (glow_lists r) = true.
Proof.
  unfold getMockGlowAnalysis.
  do 9 step_random.
  eexists _, _. split; [reflexivity|]. split; [|reflexivity].
  unfold glow_scores. cbn [forallb overallScore jawlineScore brightness
    hydration symmetryScore glowScore].
  rewrite !score_in_range_num by lia. reflexivity.
Qed.

Lemma getMockOutfitAnalysis_ok (g : Rng) :
  exists r g', getMockOutfitAnalysis g = (inr r, g')
    /\ forallb score_in_range (outfit_scores r) = true
    /\ forallb nonempty_list (outfit_lists r) = true.
Proof.
  unfold getMockOutfitAnalysis.
  do 3 step_random.
  eexists _, _. split; [reflexivity|]. split; [|reflexivity].
  unfold outfit_scores. cbn [forallb outfitScore colorMatchScore styleScore].
  rewrite !score_in_range_num by lia. reflexivity.
Qed.

Lemma truthy_present (v : value) : truthy v = true -> present v = true.
Proof. destruct v; simpl; congruence. Qed.

Lemma present_or (a d : value) : present d = true -> present (or a d) = true.
Proof.
  intros Hd. unfold or. destruct (truthy a) eqn:Ha; [|exact Hd].
  now apply truthy_present.
Qed.











Section Pipeline.
Variable JSON_parse : string -> option value.

(** A call either hands on what the [try] block of the decoder returned, or
    returns what the mock generator returns. *)
Lemma analyzeGlow_cases (env : Env) (g : Rng) :
  (exists completion r,
      llm env = LlmCompletion completion
      /\ parseGlowAnalysis_try JSON_parse completion = inr r
      /\ analyzeGlow JSON_parse env g = (inr r, g))
  \/ ((forall completion, llm env = LlmCompletion completion ->
         upload_rejects env = false -> base64_rejects env = false ->
         exists e, parseGlowAnalysis_try JSON_parse completion = inl e)
      /\ analyzeGlow JSON_parse env g = getMockGlowAnalysis g).
Proof.
  destruct (getMockGlowAnalysis_ok g) as (m & g' & Hm & _).
  destruct env as [up b64 [|txt|completion]];
    cbv [analyzeGlow getAIGlowAnalysis uploadImageToS3 analyzeImageWithVision
         convertImageToBase64 fetch_completion parseGlowAnalysis
         try_catch Eff.bind ret throw lift upload_rejects base64_rejects llm];
    destruct up, b64; try (right; split; [discriminate|]; now rewrite Hm).
  destruct (parseGlowAnalysis_try JSON_parse completion) as [e|r] eqn:Hp.
  - right. split; [|now rewrite Hm].
    intros c [= <-] _ _. eauto.
  - left. exists completion, r. auto.
Qed.

Lemma analyzeOutfit_cases (env : Env) (g : Rng) :
  (exists completion r,
      llm env = LlmCompletion completion
      /\ parseOutfitAnalysis_try JSON_parse completion = inr r
      /\ analyzeOutfit JSON_parse env g = (inr r, g))
  \/ ((forall completion, llm env = LlmCompletion completion ->
         upload_rejects env = false -> base64_rejects env = false ->
         exists e, parseOutfitAnalysis_try JSON_parse completion = inl e)
      /\ analyzeOutfit JSON_parse env g = getMockOutfitAnalysis g).
Proof.
  destruct (getMockOutfitAnalysis_ok g) as (m & g' & Hm & _).
  destruct env as [up b64 [|txt|completion]];
    cbv [analyzeOutfit getAIOutfitAnalysis uploadImageToS3 analyzeImageWithVision
         convertImageToBase64 fetch_completion parseOutfitAnalysis
         try_catch Eff.bind ret throw lift upload_rejects base64_rejects llm];
    destruct up, b64; try (right; split; [discriminate|]; now rewrite Hm).
  destruct (parseOutfitAnalysis_try JSON_parse completion) as [e|r] eqn:Hp.
  - right. split; [|now rewrite Hm].
    intros c [= <-] _ _. eauto.
  - left. exists completion, r. auto.
Qed.

(** A rejected parse outcome makes the [try] block throw. *)
Lemma glow_rejected_throws (completion : string) :
  glow_rejected (JSON_parse completion) = true ->
  exists e, parseGlowAnalysis_try JSON_parse completion = inl e.
Proof.
  unfold glow_rejected, parseGlowAnalysis_try, parse.
  destruct (JSON_parse completion) as [v|]; [|eauto].
  intros H. apply andb_true_iff in H as [H1 H2].
  apply negb_true_iff in H1, H2. rewrite H1, H2.
  destruct (get v _); eauto.
Qed.

Lemma outfit_rejected_throws (completion : string) :
  outfit_rejected (JSON_parse completion) = true ->
  exists e, parseOutfitAnalysis_try JSON_parse completion = inl e.
Proof.
  unfold outfit_rejected, parseOutfitAnalysis_try, parse.
  destruct (JSON_parse completion) as [v|]; [|eauto].
  intros H. apply negb_true_iff in H. rewrite H.
  destruct (get v _); eauto.
Qed.

(** C2.  Whatever the collaborators do, when the completion is not JSON or
    is JSON in no accepted format, [analyzeGlow] and [analyzeOutfit] do not
    throw: they return a result whose scores all lie in [0, 100] and whose
    list fields are all non-empty. *)
Theorem analyses_fall_back_on_malformed_completion
    (upload_rejects base64_rejects : bool)
    (glow_completion outfit_completion : string) (g : Rng) :
  glow_rejected (JSON_parse glow_completion) = true ->
  outfit_rejected (JSON_parse outfit_completion) = true ->
  (exists r g',
      analyzeGlow JSON_parse
        {| upload_rejects := upload_rejects; base64_rejects := base64_rejects;
           llm := LlmCompletion glow_completion |} g = (inr r, g')
      /\ forallb score_in_range (glow_scores r) = true
      /\ forallb nonempty_list (glow_lists r) = true)
  /\
  (exists r g',
      analyzeOutfit JSON_parse
        {| upload_rejects := upload_rejects; base64_rejects := base64_rejects;
           llm := LlmCompletion outfit_completion |} g = (inr r, g')
      /\ forallb score_in_range (outfit_scores r) = true
      /\ forallb nonempty_list (outfit_lists r) = true).
Proof.
  intros Hg Ho. split.
  - destruct (analyzeGlow_cases
                {| upload_rejects := upload_rejects; base64_rejects := base64_rejects;
                   llm := LlmCompletion glow_completion |} g)
      as [(c & r & Hc & Hr & _) | [_ ->]].
    + injection Hc as <-.
      destruct (glow_rejected_throws _ Hg) as [e He]. congruence.
    + apply getMockGlowAnalysis_ok.
  - destruct (analyzeOutfit_cases
                {| upload_rejects := upload_rejects; base64_rejects := base64_rejects;
                   llm := LlmCompletion outfit_completion |} g)
      as [(c & r & Hc & Hr & _) | [_ ->]].
    + injection Hc as <-.
      destruct (outfit_rejected_throws _ Ho) as [e He]. congruence.
    + apply getMockOutfitAnalysis_ok.
Qed.





End Pipeline.

(** *** The synthesized coaching plan *)

Lemma dayLoop_flat_map (fuel : nat) : forall day0 acc,
  dayLoop fuel day0 acc = acc ++ flat_map tasksOfDay (seq day0 fuel).
Proof.
  induction fuel as [|fuel IH]; intros day0 acc; simpl.
  - now rewrite app_nil_r.
  - rewrite IH. now rewrite <- app_assoc.
Qed.

Lemma tasks_on_tasksOfDay (d d' : nat) :
  tasks_on d (tasksOfDay d') = if (d' =? d)%nat then tasksOfDay d' else [].
Proof.
  unfold tasks_on, tasksOfDay.
  destruct (d' mod 3 =? 0)%nat; simpl; destruct (d' =? d)%nat; reflexivity.
Qed.

Lemma tasks_on_app (d : nat) (l l' : list DailyTask) :
  tasks_on d (l ++ l') = tasks_on d l ++ tasks_on d l'.
Proof. unfold tasks_on. apply List.filter_app. Qed.

Lemma tasks_on_flat_map (d n : nat) : forall a,
  tasks_on d (flat_map tasksOfDay (seq a n)) =
    if ((a <=? d) && (d <? a + n))%nat then tasksOfDay d else [].
Proof.
  induction n as [|n IH]; intros a; simpl.
  - replace (d <? a + 0)%nat with (d <? a)%nat by (f_equal; lia).
    destruct (Nat.leb_spec a d), (Nat.ltb_spec d a); try reflexivity; lia.
  - rewrite tasks_on_app, tasks_on_tasksOfDay, IH.
    destruct (Nat.eqb_spec a d) as [->|Hne].
    + rewrite Nat.leb_refl.
      destruct (Nat.leb_spec (S d) d); [lia|].
      destruct (Nat.ltb_spec d (d + S n)); [|lia].
      simpl. apply app_nil_r.
    + destruct (Nat.leb_spec a d), (Nat.leb_spec (S a) d); try lia;
        destruct (Nat.ltb_spec d (S a + n)), (Nat.ltb_spec d (a + S n));
        try lia; reflexivity.
Qed.

Lemma tasksOfDay_counts (d : nat) :
  length (tasksOfDay d) = (if (d mod 3 =? 0)%nat then 4 else 3)%nat
  /\ length (List.filter is_exercise (tasksOfDay d))
     = (if (d mod 3 =? 0)%nat then 1 else 0)%nat.
Proof. unfold tasksOfDay. destruct (d mod 3 =? 0)%nat; split; reflexivity. Qed.

(** The plan of [getMockCoachingPlan]: 30 days; day [d] of 1..30 has four
    tasks, one of them an exercise, when 3 divides [d], and three tasks and
    no exercise otherwise; no task falls on another day. *)
Lemma getMockCoachingPlan_shape (now : Z) (goal0 : string) :
  let p := getMockCoachingPlan now goal0 in
  goal p = goal0 /\ duration p = 30%nat
  /\ (forall d, (1 <= d <= 30)%nat ->
        length (tasks_on d (dailyTasks p))
          = (if (d mod 3 =? 0)%nat then 4 else 3)%nat
        /\ length (List.filter is_exercise (tasks_on d (dailyTasks p)))
          = (if (d mod 3 =? 0)%nat then 1 else 0)%nat)
  /\ (forall d, ~ (1 <= d <= 30)%nat -> tasks_on d (dailyTasks p) = []).
Proof.
  cbv zeta. unfold getMockCoachingPlan. cbn [goal duration dailyTasks].
  rewrite dayLoop_flat_map. cbn [app].
  split; [reflexivity|]. split; [reflexivity|]. split.
  - intros d Hd. rewrite tasks_on_flat_map.
    destruct (Nat.leb_spec 1 d); [|lia].
    destruct (Nat.ltb_spec d (1 + 30)); [|lia].
    apply tasksOfDay_counts.
  - intros d Hd. rewrite tasks_on_flat_map.
    destruct (Nat.leb_spec 1 d), (Nat.ltb_spec d (1 + 30)); try reflexivity; lia.
Qed.

Section Plan.
Variable JSON_parse : string -> option value.

(** C8.  Whenever [generateCoachingPlan] falls back (the request fails or
    the completion is not decoded), it returns, for any goal, a plan of
    duration 30 whose tasks fall exactly on days 1 to 30: four tasks with
    exactly one exercise on every day divisible by 3, three tasks and no
    exercise on every other day. *)
Theorem generateCoachingPlan_fallback_plan
    (env : Env) (now : Z) (goal0 : string) (currentGlowScore : Q) (g : Rng) :
  plan_fallback JSON_parse env now goal0 = true ->
  exists p,
    generateCoachingPlan JSON_parse env now goal0 currentGlowScore g
      = (inr (Synthesized p), g)
    /\ goal p = goal0 /\ duration p = 30%nat
    /\ (forall d, (1 <= d <= 30)%nat ->
          length (tasks_on d (dailyTasks p))
            = (if (d mod 3 =? 0)%nat then 4 else 3)%nat
          /\ length (List.filter is_exercise (tasks_on d (dailyTasks p)))
            = (if (d mod 3 =? 0)%nat then 1 else 0)%nat)
    /\ (forall d, ~ (1 <= d <= 30)%nat -> tasks_on d (dailyTasks p) = []).
Proof.
  intros Hf. exists (getMockCoachingPlan now goal0).
  split; [|apply getMockCoachingPlan_shape].
  unfold plan_fallback in Hf.
  destruct env as [up b64 [|txt|completion]];
    cbv [generateCoachingPlan fetch_completion parseCoachingPlan
         try_catch Eff.bind ret throw lift llm] in *; try reflexivity.
  destruct (parseCoachingPlan_try JSON_parse now completion goal0);
    [reflexivity | discriminate].
Qed.

End Plan.

End AIFacts.

(** C2 at a concrete call: the completion is prose, not JSON. *)
Lemma analyses_fall_back_witness :
  (exists r g',
      AI.analyzeGlow (AI.parses_as AI.glow_88_text AI.glow_88_value)
        (AI.env_with AI.prose_text) AI.sample_rng = (inr r, g')
      /\ forallb AI.score_in_range (AI.glow_scores r) = true
      /\ forallb AI.nonempty_list (AI.glow_lists r) = true)
  /\
  (exists r g',
      AI.analyzeOutfit (AI.parses_as AI.glow_88_text AI.glow_88_value)
        (AI.env_with AI.prose_text) AI.sample_rng = (inr r, g')
      /\ forallb AI.score_in_range (AI.outfit_scores r) = true
      /\ forallb AI.nonempty_list (AI.outfit_lists r) = true).
Proof.
  apply (analyses_fall_back_on_malformed_completion
           (AI.parses_as AI.glow_88_text AI.glow_88_value)
           false false AI.prose_text AI.prose_text AI.sample_rng);
    vm_compute; reflexivity.
Defined.



(** C8 at the call of the specification: goal [clear skin], score 72, and a
    request that fails. *)
Lemma generateCoachingPlan_fallback_witness :
  exists p,
    AI.generateCoachingPlan (fun _ => None)
      {| AI.upload_rejects := false; AI.base64_rejects := false;
         AI.llm := AI.LlmRejects |}
      1700000000000 "clear skin" 72 AI.sample_rng
      = (inr (AI.Synthesized p), AI.sample_rng)
    /\ AI.duration p = 30%nat
    /\ length (AI.tasks_on 3 (AI.dailyTasks p)) = 4%nat
    /\ length (AI.tasks_on 4 (AI.dailyTasks p)) = 3%nat.
Proof.
  destruct (generateCoachingPlan_fallback_plan (fun _ => None)
              {| AI.upload_rejects := false; AI.base64_rejects := false;
                 AI.llm := AI.LlmRejects |}
              1700000000000 "clear skin" 72 AI.sample_rng eq_refl)
    as (p & Hrun & _ & Hd & Hdays & _).
  exists p. split; [exact Hrun|]. split; [exact Hd|].
  split; [apply (Hdays 3%nat) | apply (Hdays 4%nat)]; lia.
Defined.

(* --------------------------------------------------------------------- *)
(** ** The Date object: calendar arithmetic                               *)
(* --------------------------------------------------------------------- *)

Section CalendarFacts.
Import Calendar.

(** Consecutive years are [DaysInYear] days apart. *)
Lemma DayFromYear_succ (y : Z) :
  DayFromYear (y + 1) = DayFromYear y + DaysInYear y.
Proof.
  unfold DayFromYear, DaysInYear.
  destruct (Z.eqb_spec (y mod 4) 0), (Z.eqb_spec (y mod 100) 0),
    (Z.eqb_spec (y mod 400) 0); simpl;
    Z.div_mod_to_equations; lia.
Qed.

Lemma DaysInYear_range (y : Z) : DaysInYear y = 365 \/ DaysInYear y = 366.
Proof.
  unfold DaysInYear.
  destruct (negb _); [auto|]. destruct (negb _); [auto|]. destruct (negb _); auto.
Qed.

(** [YearFromDay] is the year the day falls in. *)
Lemma YearFromDay_spec (d : Z) :
  DayFromYear (YearFromDay d) <= d < DayFromYear (YearFromDay d + 1).
Proof.
  unfold YearFromDay.
  set (y := 1970 + 400 * d / 146097).
  assert (Hlo : DayFromYear (y - 1) <= d).
  { subst y. unfold DayFromYear. Z.div_mod_to_equations. lia. }
  assert (Hhi : d < DayFromYear (y + 2)).
  { subst y. unfold DayFromYear. Z.div_mod_to_equations. lia. }
  destruct (Z.ltb_spec d (DayFromYear y)).
  - replace (y - 1 + 1) with y by lia. lia.
  - destruct (Z.leb_spec (DayFromYear (y + 1)) d).
    + replace (y + 1 + 1) with (y + 2) by lia. lia.
    + lia.
Qed.

Lemma MonthOfDay_cases (leap d : Z) :
  In (MonthOfDay leap d) [0; 1; 2; 3; 4; 5; 6; 7; 8; 9; 10; 11].
Proof.
  unfold MonthOfDay.
  repeat (destruct (_ <? _); [simpl; tauto|]). simpl; tauto.
Qed.

Lemma LeapOfYear_DaysInYear (y : Z) : DaysInYear y = 365 + LeapOfYear y.
Proof.
  unfold LeapOfYear. destruct (DaysInYear_range y) as [-> | ->]; reflexivity.
Qed.

Lemma LeapOfYear_range (y : Z) : 0 <= LeapOfYear y <= 1.
Proof. unfold LeapOfYear. destruct (_ =? _); lia. Qed.

Lemma DaysInMonth_range (leap m : Z) :
  0 <= leap <= 1 -> 28 <= DaysInMonth leap m <= 31.
Proof.
  intros H. unfold DaysInMonth.
  destruct m as [|p|p]; try lia.
  do 4 (destruct p; try lia).
Qed.

(** A day number and a time within the day make the time value again. *)
Lemma MakeDate_Day (t k : Z) :
  MakeDate (Day t + k) (TimeWithinDay t) = t + k * msPerDay.
Proof.
  unfold MakeDate, Day, TimeWithinDay.
  pose proof (Z.div_mod t msPerDay ltac:(discriminate)). lia.
Qed.

(** The day number of a time value, from its year, month and date. *)
Lemma Day_decompose (t : Z) :
  Day t = DayFromYear (YearFromTime t)
          + monthStart (InLeapYear t) (MonthFromTime t) + DateFromTime t - 1.
Proof. unfold DateFromTime, DayWithinYear. lia. Qed.

(** Moving the month on by one moves the day number on by the length of
    the current month. *)
Lemma MakeDay_next_month (t : Z) :
  MakeDay (YearFromTime t) (MonthFromTime t + 1) (DateFromTime t)
  = Day t + DaysInMonth (InLeapYear t) (MonthFromTime t).
Proof.
  rewrite (Day_decompose t). unfold MakeDay, InLeapYear.
  set (y := YearFromTime t). set (leap := LeapOfYear y).
  pose proof (DayFromYear_succ y) as Hy.
  rewrite LeapOfYear_DaysInYear in Hy. fold leap in Hy.
  assert (Hm : MonthFromTime t = MonthOfDay leap (DayWithinYear t)) by reflexivity.
  pose proof (MonthOfDay_cases leap (DayWithinYear t)) as Hc. rewrite <- Hm in Hc.
  simpl in Hc.
  repeat (destruct Hc as [<- | Hc];
          [try change (y + (11 + 1) / 12) with (y + 1);
           repeat match goal with
                  | |- context [y + ?k / 12] =>
                      change (y + k / 12) with (y + 0); rewrite Z.add_0_r
                  end;
           fold leap; cbn [monthStart DaysInMonth Z.modulo Z.add]; simpl; lia|]).
  destruct Hc.
Qed.

Lemma MakeDay_same_month (t k : Z) :
  MakeDay (YearFromTime t) (MonthFromTime t) (DateFromTime t + k) = Day t + k.
Proof.
  rewrite (Day_decompose t). unfold MakeDay, InLeapYear.
  set (y := YearFromTime t). set (leap := LeapOfYear y).
  assert (Hm : MonthFromTime t = MonthOfDay leap (DayWithinYear t)) by reflexivity.
  pose proof (MonthOfDay_cases leap (DayWithinYear t)) as Hc. rewrite <- Hm in Hc.
  simpl in Hc.
  repeat (destruct Hc as [<- | Hc];
          [repeat match goal with
                  | |- context [y + ?k / 12] =>
                      change (y + k / 12) with (y + 0); rewrite Z.add_0_r
                  end;
           rewrite ?Z.add_0_r; fold leap; simpl; lia|]).
  destruct Hc.
Qed.

(** [d.setMonth(d.getMonth() + 1)] moves the local clock on by the length
    of the current month. *)
Lemma setMonth_next (tza : TimeZone) (t : Z) :
  setMonth tza t (getMonth tza t + 1)
  = daysLater tza t (DaysInMonth (InLeapYear (LocalTime tza t))
                                 (MonthFromTime (LocalTime tza t))).
Proof.
  unfold setMonth, getMonth, daysLater.
  rewrite MakeDay_next_month, MakeDate_Day. reflexivity.
Qed.

(** [d.setDate(d.getDate() + k)] moves the local clock on by [k] days. *)
Lemma setDate_plus (tza : TimeZone) (t k : Z) :
  setDate tza t (getDate tza t + k) = daysLater tza t k.
Proof.
  unfold setDate, getDate, daysLater.
  rewrite MakeDay_same_month, MakeDate_Day. reflexivity.
Qed.

(** The local clock moved on by [k] days: the time value moves on by [k]
    days and by the difference of the offsets at both ends. *)
Lemma daysLater_offsets (tza : TimeZone) (t k : Z) :
  daysLater tza t k
  = t + k * msPerDay
    + (tza t true - tza (LocalTime tza t + k * msPerDay) false).
Proof. unfold daysLater, UTC, LocalTime. lia. Qed.

Lemma daysLater_within (tza : TimeZone) (drift t k : Z) :
  offsets_within tza drift ->
  t + k * msPerDay - drift <= daysLater tza t k <= t + k * msPerDay + drift.
Proof.
  intros H. rewrite daysLater_offsets.
  pose proof (H t true (LocalTime tza t + k * msPerDay) false).
  pose proof (H (LocalTime tza t + k * msPerDay) false t true).
  lia.
Qed.

Lemma daysLater_fixedOffset (offset t k : Z) :
  daysLater (fixedOffset offset) t k = t + k * msPerDay.
Proof. rewrite daysLater_offsets. unfold fixedOffset. lia. Qed.

Lemma offsets_within_fixedOffset (offset : Z) :
  offsets_within (fixedOffset offset) 0.
Proof. intros t b t' b'. unfold fixedOffset. lia. Qed.

Lemma offsets_within_europe_autumn_2023 :
  offsets_within europe_autumn_2023 3600000.
Proof.
  intros t b t' b'. unfold europe_autumn_2023.
  destruct b, b'; repeat destruct (_ <? _); lia.
Qed.

(** [d.setMonth(d.getMonth() + 1)] moves the local clock on by 28 to 31
    days. *)
Lemma setMonth_next_days (tza : TimeZone) (t : Z) :
  exists k, 28 <= k <= 31
    /\ setMonth tza t (getMonth tza t + 1) = daysLater tza t k.
Proof.
  rewrite setMonth_next. eexists. split; [|reflexivity].
  apply DaysInMonth_range, LeapOfYear_range.
Qed.

Lemma setMonth_next_range (tza : TimeZone) (drift t : Z) :
  offsets_within tza drift ->
  t + 28 * msPerDay - drift <= setMonth tza t (getMonth tza t + 1)
    <= t + 31 * msPerDay + drift.
Proof.
  intros H. destruct (setMonth_next_days tza t) as (k & Hk & ->).
  pose proof (daysLater_within tza drift t k H).
  unfold msPerDay in *. lia.
Qed.

End CalendarFacts.

(** 14 November 2023, 22:13:20 UTC. *)
Example calendar_2023_11_14 :
  (Calendar.YearFromTime 1700000000000, Calendar.MonthFromTime 1700000000000,
   Calendar.DateFromTime 1700000000000) = (2023, 10, 14).
Proof. vm_compute. reflexivity. Qed.

(** 31 January 2024 plus one month carries over to 2 March 2024; 31
    December 2023 plus one month is 31 January 2024. *)
Example setMonth_carries_over :
  let utc := Calendar.fixedOffset 0 in
  Calendar.setMonth utc 1706659200000 (Calendar.getMonth utc 1706659200000 + 1)
    = 1709337600000
  /\ Calendar.setMonth utc 1703980800000 (Calendar.getMonth utc 1703980800000 + 1)
    = 1706659200000.
Proof. split; vm_compute; reflexivity. Qed.

(** Across the end of daylight saving the local clock gains an hour: from
    25 October 2023, 12:00 in central Europe, [setDate(getDate() + 7)]
    is seven days and one hour on, and [setMonth(getMonth() + 1)] 31 days
    and one hour. *)
Example setters_across_the_end_of_daylight_saving :
  let tza := Calendar.europe_autumn_2023 in
  let t := 1698228000000 in
  Calendar.setDate tza t (Calendar.getDate tza t + 7)
    = t + 7 * Calendar.msPerDay + 3600000
  /\ Calendar.setMonth tza t (Calendar.getMonth tza t + 1)
    = t + 31 * Calendar.msPerDay + 3600000
  /\ (Calendar.getFullYear tza t, Calendar.getMonth tza t, Calendar.getDate tza t)
    = (2023, 9, 25).
Proof. repeat split; vm_compute; reflexivity. Qed.

(* --------------------------------------------------------------------- *)
(** ** SubscriptionService: entitlement records                           *)
(* --------------------------------------------------------------------- *)

Section SubscriptionFacts.
Import Calendar Subscription.

Ltac run_method :=
  cbv [getSubscriptionStatus startFreeTrial subscribeToPlan cancelSubscription
       Eff.try_catch Eff.bind Eff.ret Eff.lift Eff.throw
       getItem setItem removeItem simulateSubscriptionAPI].

Lemma keys_differ : STORAGE_KEY <> TRIAL_STORAGE_KEY.
Proof. discriminate. Qed.

(** What a read returns, for the records the storage holds. *)
Lemma getSubscriptionStatus_run (s : Storage) (paid : option StoredSubscription)
    (trial : option StoredTrial) (now_trial now_paid : Z) :
  holds s paid trial ->
  exists st,
    getSubscriptionStatus now_trial now_paid s = (inr st, s)
    /\ isActive st =
         (if paid_expired paid now_paid then false
          else paid_flag paid || trial_active trial now_trial)
    /\ plan st = (paid ≫= stored_plan)
    /\ expiresAt st = (paid ≫= stored_expiresAt)
    /\ isTrialActive st = ((fun t => now_trial <? trial_expiresAt t) <$> trial)
    /\ trialExpiresAt st = (trial_expiresAt <$> trial).
Proof.
  intros [Hp Ht]. run_method. rewrite Hp, Ht.
  destruct paid as [[flag pl [e|]]|], trial as [[pid st0 te u]|]; simpl;
    eexists; (split; [reflexivity|]); simpl;
    repeat split;
    try destruct flag; try destruct (now_trial <? te);
    try destruct (e <=? now_paid); reflexivity.
Qed.

(** C1, as the code has it.  A read leaves the storage as it is and
    recomputes [isActive] from the stored records and the clock.  While the
    paid record is absent or its expiry is unset or in the future,
    [isActive] is true exactly when a paid record is stored with its
    [isActive] flag set or the trial expiry is in the future.  When the
    paid expiry is not in the future and no trial is active, [isActive] is
    false. *)
Theorem getSubscriptionStatus_isActive (s : Storage)
    (paid : option StoredSubscription) (trial : option StoredTrial)
    (now_trial now_paid : Z) :
  holds s paid trial ->
  exists st,
    getSubscriptionStatus now_trial now_paid s = (inr st, s)
    /\ (paid_expired paid now_paid = false ->
        isActive st = paid_flag paid || trial_active trial now_trial)
    /\ (paid_expired paid now_paid = true ->
        trial_active trial now_trial = false ->
        isActive st = false).
Proof.
  intros H.
  destruct (getSubscriptionStatus_run s paid trial now_trial now_paid H)
    as (st & Hrun & Hact & _).
  exists st. split; [exact Hrun|]. rewrite Hact.
  split; intros ->; reflexivity.
Qed.

(** An expired paid record switches [isActive] off even while a trial is
    active: the expiry check runs last. *)
Lemma getSubscriptionStatus_expired_paid_with_active_trial (s : Storage)
    (paid : option StoredSubscription) (trial : option StoredTrial)
    (now_trial now_paid : Z) :
  holds s paid trial ->
  paid_expired paid now_paid = true ->
  trial_active trial now_trial = true ->
  exists st,
    getSubscriptionStatus now_trial now_paid s = (inr st, s)
    /\ isActive st = false
    /\ isTrialActive st = Some true.
Proof.
  intros H Hexp Htrial.
  destruct (getSubscriptionStatus_run s paid trial now_trial now_paid H)
    as (st & Hrun & Hact & _ & _ & Hta & _).
  exists st. split; [exact Hrun|]. rewrite Hact, Hexp, Hta.
  split; [reflexivity|].
  destruct trial as [t|]; simpl in *; [now rewrite Htrial | discriminate].
Qed.

(** *** Calls and the trial record *)

Section Trial.
Variable tza : TimeZone.

(** Once a used trial record is stored, [startFreeTrial] refuses and
    writes nothing. *)
Lemma startFreeTrial_used (s : Storage) (t : StoredTrial)
    (planId0 : string) (api_ok : bool) (now now_started : Z) :
  s !! TRIAL_STORAGE_KEY = Some (TrialItem t) -> used t = true ->
  startFreeTrial tza planId0 api_ok now now_started s
    = (inr {| success := false; error := Some trial_used_error |}, s).
Proof.
  intros Ht Hu. run_method. rewrite Ht. simpl. rewrite Hu. reflexivity.
Qed.

(** A successful [startFreeTrial] leaves a used trial record behind. *)
Lemma startFreeTrial_success (s s' : Storage)
    (planId0 : string) (api_ok : bool) (now now_started : Z) :
  startFreeTrial tza planId0 api_ok now now_started s
    = (inr {| success := true; error := None |}, s') ->
  exists t, s' !! TRIAL_STORAGE_KEY = Some (TrialItem t) /\ used t = true.
Proof.
  run_method.
  destruct (s !! TRIAL_STORAGE_KEY) as [[r|r]|]; simpl; try discriminate;
    [destruct (used r); try discriminate|];
    (destruct (findPlan planId0) as [pl|]; [|discriminate];
     destruct (trialDays pl) as [days|]; [|discriminate];
     destruct (days =? 0); [discriminate|];
     destruct api_ok; [|discriminate];
     intros [= <-]; eexists; split; [apply lookup_insert_eq | reflexivity]).
Qed.

(** The methods write under one key each: none touches the trial key but
    [startFreeTrial], and that one only without a used trial record. *)
Lemma after_keeps_used_trial (c : Call) (s : Storage) (t : StoredTrial) :
  s !! TRIAL_STORAGE_KEY = Some (TrialItem t) -> used t = true ->
  after tza c s !! TRIAL_STORAGE_KEY = Some (TrialItem t).
Proof.
  intros Ht Hu. destruct c as [pid api now started|pid api now|api|n1 n2]; simpl.
  - now rewrite (startFreeTrial_used s t pid api now started Ht Hu).
  - run_method. destruct (findPlan pid); [|exact Ht].
    destruct api; [|exact Ht]. simpl.
    rewrite lookup_insert_ne by apply keys_differ. exact Ht.
  - run_method. destruct api; [|exact Ht]. simpl.
    rewrite lookup_delete_ne by apply keys_differ. exact Ht.
  - run_method. rewrite Ht.
    destruct (s !! STORAGE_KEY) as [[r|r]|]; exact Ht.
Qed.

Lemma after_all_keeps_used_trial (calls : list Call) : forall (s : Storage) (t : StoredTrial),
  s !! TRIAL_STORAGE_KEY = Some (TrialItem t) -> used t = true ->
  after_all tza calls s !! TRIAL_STORAGE_KEY = Some (TrialItem t).
Proof.
  induction calls as [|c calls IH]; intros s t Ht Hu; [exact Ht|].
  unfold after_all in *. simpl. apply IH; [|exact Hu].
  now apply after_keeps_used_trial.
Qed.

(** C7.  After a successful [startFreeTrial], whatever calls follow
    ([startFreeTrial], [subscribeToPlan], [cancelSubscription],
    [getSubscriptionStatus], at any times and with any billing outcome),
    the trial record is still stored with [used] set, and a further
    [startFreeTrial] returns the already-used error and writes nothing. *)
Theorem trial_used_is_permanent (s s' : Storage)
    (planId0 : string) (api_ok : bool) (now now_started : Z)
    (calls : list Call)
    (planId1 : string) (api_ok1 : bool) (now1 now_started1 : Z) :
  startFreeTrial tza planId0 api_ok now now_started s
    = (inr {| success := true; error := None |}, s') ->
  let s'' := after_all tza calls s' in
  (exists t, s'' !! TRIAL_STORAGE_KEY = Some (TrialItem t) /\ used t = true)
  /\ startFreeTrial tza planId1 api_ok1 now1 now_started1 s''
     = (inr {| success := false; error := Some trial_used_error |}, s'').
Proof.
  intros Hok s''. subst s''.
  destruct (startFreeTrial_success s s' planId0 api_ok now now_started Hok)
    as (t & Ht & Hu).
  pose proof (after_all_keeps_used_trial calls s' t Ht Hu) as Ht'.
  split; [eauto|]. now apply (startFreeTrial_used _ t).
Qed.

(** C10.  When the billing call throws, [startFreeTrial] and
    [subscribeToPlan] do not throw: each returns a result with [success]
    false and an error message, and leaves the storage as it was. *)
Theorem billing_failure_writes_nothing (s : Storage)
    (planId0 : string) (now now_started : Z) :
  (exists msg,
      startFreeTrial tza planId0 false now now_started s
        = (inr {| success := false; error := Some msg |}, s))
  /\ (exists msg,
      subscribeToPlan tza planId0 false now s
        = (inr {| success := false; error := Some msg |}, s)).
Proof.
  split; run_method.
  - destruct (s !! TRIAL_STORAGE_KEY) as [[r|r]|]; simpl; eauto;
      [destruct (used r); eauto|];
      (destruct (findPlan planId0) as [pl|]; eauto;
       destruct (trialDays pl) as [days|]; eauto;
       destruct (days =? 0); eauto).
  - destruct (findPlan planId0) as [pl|]; eauto.
Qed.

(** A successful [subscribeToPlan] of the monthly plan stores the plan,
    the flag and an expiry one month on, and touches nothing else. *)
Lemma subscribeToPlan_monthly_success (s s' : Storage) (api_ok : bool) (now : Z) :
  subscribeToPlan tza "premium_monthly" api_ok now s
    = (inr {| success := true; error := None |}, s') ->
  s' = <[STORAGE_KEY :=
           SubscriptionItem
             {| stored_isActive := true;
                stored_plan := Some premium_monthly;
                stored_expiresAt :=
                  Some (setMonth tza now (getMonth tza now + 1)) |}]> s.
Proof.
  run_method.
  change (findPlan "premium_monthly") with (Some premium_monthly).
  destruct api_ok; [|discriminate]. cbn [duration premium_monthly].
  now intros [= <-].
Qed.

(** C9.  If [subscribeToPlan] of [premium_monthly] succeeds at time [now],
    a read that follows returns [isActive] true, the [premium_monthly]
    catalog entry as [plan], and as [expiresAt] the time value of
    [setMonth(getMonth() + 1)] at [now]: the time at which the local clock
    reads what it read at [now], 28 to 31 days on.  In a zone whose offsets
    are no more than [drift] apart that is between 28 days less [drift]
    and 31 days plus [drift] after [now], and the read is one made before
    28 days less [drift] have passed. *)
Theorem subscribe_then_read_round_trip (s s' : Storage) (api_ok : bool)
    (now now_trial now_paid drift : Z) :
  trial_slot_ok s = true ->
  offsets_within tza drift ->
  subscribeToPlan tza "premium_monthly" api_ok now s
    = (inr {| success := true; error := None |}, s') ->
  now_paid < now + 28 * msPerDay - drift ->
  exists st e,
    getSubscriptionStatus now_trial now_paid s' = (inr st, s')
    /\ isActive st = true
    /\ plan st = Some premium_monthly
    /\ expiresAt st = Some e
    /\ e = setMonth tza now (getMonth tza now + 1)
    /\ (exists k, 28 <= k <= 31 /\ e = daysLater tza now k)
    /\ now + 28 * msPerDay - drift <= e <= now + 31 * msPerDay + drift.
Proof.
  intros Hslot Hzone Hsub Hsoon.
  apply subscribeToPlan_monthly_success in Hsub.
  pose proof (setMonth_next_days tza now) as Hdays.
  set (e := setMonth tza now (getMonth tza now + 1)) in *.
  set (rec := {| stored_isActive := true; stored_plan := Some premium_monthly;
                 stored_expiresAt := Some e |}) in *.
  pose proof (setMonth_next_range tza drift now Hzone) as He. fold e in He.
  assert (Hholds : exists trial, holds s' (Some rec) trial).
  { unfold holds. subst s'. rewrite lookup_insert_eq.
    rewrite lookup_insert_ne by apply keys_differ.
    unfold trial_slot_ok in Hslot.
    destruct (s !! TRIAL_STORAGE_KEY) as [[r|t]|] eqn:Ht; [discriminate| |].
    - exists (Some t). auto.
    - exists None. auto. }
  destruct Hholds as [trial Hholds].
  destruct (getSubscriptionStatus_run s' (Some rec) trial now_trial now_paid Hholds)
    as (st & Hrun & Hact & Hplan & Hexp & _).
  exists st, e. split; [exact Hrun|].
  split; [|auto 6].
  rewrite Hact. cbn [paid_expired paid_flag rec stored_expiresAt stored_isActive].
  destruct (Z.leb_spec e now_paid); [lia | reflexivity].
Qed.

End Trial.

End SubscriptionFacts.

(** C1, the claim as stated fails.  A trial is started on a fresh
    installation and runs out; no paid record was ever stored, so its
    expiry is unset.  Nine days on, the read returns [isActive] false,
    where the specified formula gives true. *)
Lemma getSubscriptionStatus_inactive_without_paid_record :
  let t0 := 1700000000000 in
  let later := t0 + 9 * Calendar.msPerDay in
  let s := Subscription.after_all (Calendar.fixedOffset 0)
             [Subscription.CallStartFreeTrial "premium_monthly" true t0 t0] ∅ in
  let trial := {| Subscription.planId := "premium_monthly";
                  Subscription.startedAt := t0;
                  Subscription.trial_expiresAt := t0 + 7 * Calendar.msPerDay;
                  Subscription.used := true |} in
  Subscription.holds s None (Some trial)
  /\ (exists st,
        Subscription.getSubscriptionStatus later later s = (inr st, s)
        /\ Subscription.isActive st = false)
  /\ Subscription.isActive_as_specified None (Some trial) later = true.
Proof.
  cbv zeta. unfold Subscription.after_all. cbn [fold_left Subscription.after].
  assert (Hs : snd (Subscription.startFreeTrial (Calendar.fixedOffset 0)
                      "premium_monthly" true
                      1700000000000 1700000000000 ∅)
               = <[Subscription.TRIAL_STORAGE_KEY :=
                     Subscription.TrialItem
                       {| Subscription.planId := "premium_monthly";
                          Subscription.startedAt := 1700000000000;
                          Subscription.trial_expiresAt :=
                            1700000000000 + 7 * Calendar.msPerDay;
                          Subscription.used := true |}]> ∅).
  { cbv [Subscription.startFreeTrial Eff.try_catch Eff.bind Eff.ret Eff.lift Eff.throw
         Subscription.getItem Subscription.setItem
         Subscription.simulateSubscriptionAPI].
    rewrite lookup_empty.
    change (Subscription.findPlan "premium_monthly")
      with (Some Subscription.premium_monthly).
    cbn [Subscription.trialDays Subscription.premium_monthly Z.eqb snd].
    rewrite setDate_plus, daysLater_fixedOffset. reflexivity. }
  rewrite Hs.
  assert (Hholds : Subscription.holds
            (<[Subscription.TRIAL_STORAGE_KEY :=
                 Subscription.TrialItem
                   {| Subscription.planId := "premium_monthly";
                      Subscription.startedAt := 1700000000000;
                      Subscription.trial_expiresAt :=
                        1700000000000 + 7 * Calendar.msPerDay;
                      Subscription.used := true |}]> ∅)
            None
            (Some {| Subscription.planId := "premium_monthly";
                      Subscription.startedAt := 1700000000000;
                      Subscription.trial_expiresAt :=
                        1700000000000 + 7 * Calendar.msPerDay;
                      Subscription.used := true |})).
  { split.
    - rewrite lookup_insert_ne by discriminate. apply lookup_empty.
    - apply lookup_insert_eq. }
  split; [exact Hholds|]. split; [|reflexivity].
  destruct (getSubscriptionStatus_run _ _ _
              (1700000000000 + 9 * Calendar.msPerDay)
              (1700000000000 + 9 * Calendar.msPerDay) Hholds)
    as (st & Hrun & Hact & _).
  exists st. split; [exact Hrun|]. rewrite Hact. reflexivity.
Qed.

(** C1 at a concrete storage: a paid record with ten days left and a trial
    that has run out. *)
Lemma getSubscriptionStatus_isActive_witness :
  let now := 1700000000000 in
  let paid := {| Subscription.stored_isActive := true;
                 Subscription.stored_plan := Some Subscription.premium_monthly;
                 Subscription.stored_expiresAt := Some (now + 10 * Calendar.msPerDay) |} in
  let trial := {| Subscription.planId := "premium_monthly";
                  Subscription.startedAt := now - 30 * Calendar.msPerDay;
                  Subscription.trial_expiresAt := now - 23 * Calendar.msPerDay;
                  Subscription.used := true |} in
  let s : Subscription.Storage :=
    <[Subscription.STORAGE_KEY := Subscription.SubscriptionItem paid]>
      (<[Subscription.TRIAL_STORAGE_KEY := Subscription.TrialItem trial]> ∅) in
  exists st,
    Subscription.getSubscriptionStatus now now s = (inr st, s)
    /\ Subscription.isActive st = true.
Proof.
  cbv zeta.
  match goal with
  | |- exists st, Subscription.getSubscriptionStatus ?n1 ?n2 ?s = _ /\ _ =>
      destruct (getSubscriptionStatus_isActive s
                  (Some {| Subscription.stored_isActive := true;
                           Subscription.stored_plan := Some Subscription.premium_monthly;
                           Subscription.stored_expiresAt :=
                             Some (1700000000000 + 10 * Calendar.msPerDay) |})
                  (Some {| Subscription.planId := "premium_monthly";
                           Subscription.startedAt :=
                             1700000000000 - 30 * Calendar.msPerDay;
                           Subscription.trial_expiresAt :=
                             1700000000000 - 23 * Calendar.msPerDay;
                           Subscription.used := true |})
                  n1 n2)
        as (st & Hrun & Hlive & _)
  end.
  - split.
    + apply lookup_insert_eq.
    + rewrite lookup_insert_ne by discriminate. apply lookup_insert_eq.
  - exists st. split; [exact Hrun|]. apply Hlive. reflexivity.
Defined.

(** C7 at a concrete history: a trial, then a subscription, its
    cancellation and a read eight days later, then a second trial. *)
Lemma trial_used_is_permanent_witness :
  let t0 := 1700000000000 in
  let utc := Calendar.fixedOffset 0 in
  let s' := snd (Subscription.startFreeTrial utc "premium_monthly" true t0 t0 ∅) in
  let calls := [Subscription.CallSubscribeToPlan "premium_yearly" true (t0 + 1000);
                Subscription.CallCancelSubscription true;
                Subscription.CallGetSubscriptionStatus
                  (t0 + 8 * Calendar.msPerDay) (t0 + 8 * Calendar.msPerDay)] in
  let s'' := Subscription.after_all utc calls s' in
  Subscription.startFreeTrial utc "premium_yearly" true
    (t0 + 9 * Calendar.msPerDay) (t0 + 9 * Calendar.msPerDay) s''
  = (inr {| Subscription.success := false;
            Subscription.error := Some Subscription.trial_used_error |}, s'').
Proof.
  cbv zeta.
  apply (trial_used_is_permanent (Calendar.fixedOffset 0) ∅ _ "premium_monthly" true
           1700000000000 1700000000000).
  cbv [Subscription.startFreeTrial Eff.try_catch Eff.bind Eff.ret Eff.lift Eff.throw
       Subscription.getItem Subscription.setItem
       Subscription.simulateSubscriptionAPI].
  rewrite lookup_empty. reflexivity.
Defined.

(** C9 at a concrete call: a fresh installation in central Europe, a
    subscription on 25 October 2023 at noon, and a read five milliseconds
    later.  The subscription runs until 25 November at noon, which is 31
    days and one hour on. *)
Lemma subscribe_then_read_witness :
  let tza := Calendar.europe_autumn_2023 in
  let t0 := 1698228000000 in
  let s' := snd (Subscription.subscribeToPlan tza "premium_monthly" true t0 ∅) in
  exists st,
    Subscription.getSubscriptionStatus (t0 + 5) (t0 + 5) s' = (inr st, s')
    /\ Subscription.isActive st = true
    /\ Subscription.plan st = Some Subscription.premium_monthly
    /\ Subscription.expiresAt st = Some (t0 + 31 * Calendar.msPerDay + 3600000).
Proof.
  cbv zeta.
  destruct (subscribe_then_read_round_trip Calendar.europe_autumn_2023 ∅
              (snd (Subscription.subscribeToPlan Calendar.europe_autumn_2023
                      "premium_monthly" true 1698228000000 ∅))
              true 1698228000000 (1698228000000 + 5) (1698228000000 + 5) 3600000)
    as (st & e & Hrun & Hact & Hplan & Hexp & He & _).
  - reflexivity.
  - intros t b t' b'. unfold Calendar.europe_autumn_2023.
    destruct b, b'; repeat destruct (_ <? _); lia.
  - reflexivity.
  - reflexivity.
  - exists st. split; [exact Hrun|]. split; [exact Hact|]. split; [exact Hplan|].
    rewrite Hexp, He. vm_compute. reflexivity.
Defined.

(* --------------------------------------------------------------------- *)
(** ** NetworkService: every call, whatever the network does              *)
(* --------------------------------------------------------------------- *)

Section NetworkMore.
Import Network NetworkClient.

Variables (API_TIMEOUT : Z) (API_RETRY_ATTEMPTS : nat) (API_RETRY_DELAY : Z).
Variable USER_AGENT : string.

Lemma attempt_succeeds_fails o :
  attempt_succeeds o = false <-> attempt_fails o = true.
Proof.
  destruct o as [st txt| |]; simpl; try tauto.
  destruct (ok _); simpl; split; congruence.
Qed.

Section LoopMore.
Variable net : nat -> FetchOutcome.
Variables (url : string) (options : RequestInit).
Variables (timeout_ms : Z) (retries_n : nat) (retryDelay_ms : Z).
Variable requestHeaders : gmap string string.

Abbreviation req := (request url options timeout_ms requestHeaders).
Abbreviation run :=
  (attempts net url options timeout_ms retries_n retryDelay_ms requestHeaders).

(** An attempt that succeeds ends the loop. *)
Lemma attempts_step_ok k a last r :
  response_of (net a) = Some r -> ok r = true ->
  run (S k) a last = (Resolved r, [EvFetch a req]).
Proof.
  intros Hr Hok. cbn [attempts]. unfold try_block.
  destruct (net a) as [st txt| |]; simpl in Hr; try discriminate.
  injection Hr as <-. rewrite Hok. reflexivity.
Qed.

(** The shape of every run: some attempts that fail, each followed by its
    backoff delay, then one last fetch; a run that rejects has used the
    last attempt, and its error was built by the [catch] block. *)
Lemma attempts_shape k : forall a last,
  (a + k = retries_n)%nat ->
  exists j, (j <= k)%nat
    /\ snd (run (S k) a last)
       = backoff_trace req retryDelay_ms a j ++ [EvFetch (a + j) req]
    /\ (forall i, (a <= i < a + j)%nat -> attempt_fails (net i) = true)
    /\ match fst (run (S k) a last) with
       | Resolved r => response_of (net (a + j)) = Some r /\ ok r = true
       | Rejected e => j = k /\ e = Some (propagated (net retries_n))
                       /\ attempt_fails (net retries_n) = true
       end.
Proof.
  induction k as [|k IH]; intros a last Hak.
  - exists 0%nat. rewrite Nat.add_0_r in *. subst a.
    destruct (attempt_succeeds (net retries_n)) eqn:Hs.
    + destruct (net retries_n) as [st txt| |] eqn:Hn; simpl in Hs; try discriminate.
      rewrite (attempts_step_ok 0 retries_n last
                 {| resp_status := st; resp_statusText := txt |});
        [| now rewrite Hn | exact Hs].
      repeat split; try (intros; lia); auto.
    + apply attempt_succeeds_fails in Hs.
      rewrite (attempts_last_fail net url options timeout_ms retries_n
                 retryDelay_ms requestHeaders 0 last Hs).
      repeat split; try (intros; lia); auto.
  - destruct (attempt_succeeds (net a)) eqn:Hs.
    + exists 0%nat. rewrite Nat.add_0_r.
      destruct (net a) as [st txt| |] eqn:Hn; simpl in Hs; try discriminate.
      rewrite (attempts_step_ok (S k) a last
                 {| resp_status := st; resp_statusText := txt |});
        [| now rewrite Hn | exact Hs].
      repeat split; try (intros; lia); auto.
    + apply attempt_succeeds_fails in Hs.
      destruct (attempts_step_fail net url options timeout_ms retries_n
                  retryDelay_ms requestHeaders (S k) a last Hs ltac:(lia))
        as [e He].
      rewrite He.
      destruct (IH (S a) (Some e) ltac:(lia)) as (j & Hj & Htr & Hfail & Hout).
      exists (S j). cbn [fst snd]. rewrite Htr.
      replace (S a + j)%nat with (a + S j)%nat in * by lia.
      split; [lia|]. split; [reflexivity|]. split.
      * intros i Hi. destruct (Nat.eq_dec i a) as [->|Hne]; [exact Hs|].
        apply Hfail. lia.
      * destruct (fst (run (S k) (S a) (Some e))); [exact Hout|].
        destruct Hout as (-> & Hout). auto.
Qed.

End LoopMore.

Lemma sum_Z_app l l' : sum_Z (l ++ l') = sum_Z l + sum_Z l'.
Proof. induction l as [|x l IH]; simpl; lia. Qed.

(** The delays of [j] consecutive failures add up to [d * (2^j - 1)]. *)
Lemma sum_backoff (d : Z) (j : nat) :
  sum_Z (map (fun k => d * 2 ^ Z.of_nat k) (seq 0 j)) = d * (2 ^ Z.of_nat j - 1).
Proof.
  induction j as [|j IH]; [simpl; lia|].
  rewrite seq_S, map_app, sum_Z_app, IH. cbn [map sum_Z Nat.add].
  rewrite Nat2Z.inj_succ, Z.pow_succ_r by lia. lia.
Qed.

Lemma makeRequest_trace_shape_core
    (net : nat -> FetchOutcome) (url : string) (options : RequestInit)
    (config : RequestConfig) :
  let n := default API_RETRY_ATTEMPTS (retries config) in
  let d := default API_RETRY_DELAY (retryDelay config) in
  let res := makeRequest API_TIMEOUT API_RETRY_ATTEMPTS API_RETRY_DELAY
               USER_AGENT net url options config in
  exists j r, (j <= n)%nat
    /\ snd res = backoff_trace r d 0 j ++ [EvFetch j r]
    /\ map fst (fetches (snd res)) = seq 0 (S j)
    /\ delays (snd res) = map (fun k => d * 2 ^ Z.of_nat k) (seq 0 j)
    /\ sum_Z (delays (snd res)) = d * (2 ^ Z.of_nat j - 1).
Proof.
  intros n d res. subst res. unfold makeRequest. fold n. fold d.
  destruct (attempts_shape net url options (default API_TIMEOUT (timeout config))
              n d (spread (baseHeaders USER_AGENT) (opt_headers (headers config)))
              n 0%nat None eq_refl) as (j & Hj & Htr & _ & _).
  exists j. eexists. split; [exact Hj|]. rewrite Htr. cbn [Nat.add].
  split; [reflexivity|].
  rewrite fetches_app, delays_app, fetches_backoff, delays_backoff.
  rewrite fetches_fetch, delays_fetch, map_app, map_map, app_nil_r, sum_backoff.
  cbn [map fst]. rewrite map_id, seq_S. auto.
Qed.

(** X1.  The trace of any call of [makeRequest]: between one and [retries + 1]
    fetches, numbered from 0 without gaps, every fetch but the last
    followed by the delay [retryDelay * 2^n]. *)
Theorem makeRequest_trace_shape
    (net : nat -> FetchOutcome) (url : string) (options : RequestInit)
    (config : RequestConfig) :
  let n := default API_RETRY_ATTEMPTS (retries config) in
  let d := default API_RETRY_DELAY (retryDelay config) in
  let res := makeRequest API_TIMEOUT API_RETRY_ATTEMPTS API_RETRY_DELAY
               USER_AGENT net url options config in
  exists j r, (j <= n)%nat
    /\ snd res = backoff_trace r d 0 j ++ [EvFetch j r]
    /\ map fst (fetches (snd res)) = seq 0 (S j)
    /\ delays (snd res) = map (fun k => d * 2 ^ Z.of_nat k) (seq 0 j)
    /\ sum_Z (delays (snd res)) = d * (2 ^ Z.of_nat j - 1).
Proof. exact (makeRequest_trace_shape_core net url options config). Qed.

Lemma makeRequest_recovers_core
    (net : nat -> FetchOutcome) (url : string) (options : RequestInit)
    (config : RequestConfig) (k : nat) (r : Response) :
  let n := default API_RETRY_ATTEMPTS (retries config) in
  let d := default API_RETRY_DELAY (retryDelay config) in
  let res := makeRequest API_TIMEOUT API_RETRY_ATTEMPTS API_RETRY_DELAY
               USER_AGENT net url options config in
  (k <= n)%nat ->
  (forall i, (i < k)%nat -> attempt_fails (net i) = true) ->
  response_of (net k) = Some r -> ok r = true ->
  fst res = Resolved r
  /\ map fst (fetches (snd res)) = seq 0 (S k)
  /\ delays (snd res) = map (fun i => d * 2 ^ Z.of_nat i) (seq 0 k).
Proof.
  intros n d res Hk Hfail Hr Hok. subst res. unfold makeRequest. fold n. fold d.
  destruct (attempts_shape net url options (default API_TIMEOUT (timeout config))
              n d (spread (baseHeaders USER_AGENT) (opt_headers (headers config)))
              n 0%nat None eq_refl) as (j & Hj & Htr & Hf & Hout).
  cbn [Nat.add] in *.
  assert (Hks : attempt_succeeds (net k) = true).
  { destruct (net k); simpl in *; try discriminate. now injection Hr as <-. }
  assert (Hjk : j = k).
  { destruct (Nat.lt_trichotomy j k) as [Hlt|[Heq|Hgt]]; [|exact Heq|].
    - exfalso. specialize (Hfail j Hlt).
      destruct (fst (attempts _ _ _ _ _ _ _ _ _ _)).
      + destruct Hout as [Hrj Hokj].
        destruct (net j); simpl in *; try discriminate.
        injection Hrj as <-. rewrite Hokj in Hfail. discriminate.
      + destruct Hout as (-> & _). lia.
    - exfalso. specialize (Hf k ltac:(lia)).
      apply attempt_succeeds_fails in Hf. congruence. }
  subst j. rewrite Htr.
  rewrite fetches_app, delays_app, fetches_backoff, delays_backoff.
  rewrite fetches_fetch, delays_fetch, map_app, map_map, app_nil_r.
  cbn [map fst]. rewrite map_id, seq_S. cbn [Nat.add].
  split; [|auto].
  destruct (fst (attempts _ _ _ _ _ _ _ _ _ _)).
  - destruct Hout as [Hr' _]. congruence.
  - destruct Hout as (Hkn & _ & Hlast). fold n in Hlast. rewrite <- Hkn in Hlast.
    apply attempt_succeeds_fails in Hlast. congruence.
Qed.

(** X2.  A call recovers from failures: when attempts 0 to [k-1] fail, in
    whatever way, and attempt [k] (at most [retries]) is answered with a
    2xx status, [makeRequest] resolves with that response after [k + 1]
    fetches and the [k] backoff delays. *)
Theorem makeRequest_recovers
    (net : nat -> FetchOutcome) (url : string) (options : RequestInit)
    (config : RequestConfig) (k : nat) (r : Response) :
  let n := default API_RETRY_ATTEMPTS (retries config) in
  let d := default API_RETRY_DELAY (retryDelay config) in
  let res := makeRequest API_TIMEOUT API_RETRY_ATTEMPTS API_RETRY_DELAY
               USER_AGENT net url options config in
  (k <= n)%nat ->
  (forall i, (i < k)%nat -> attempt_fails (net i) = true) ->
  response_of (net k) = Some r -> ok r = true ->
  fst res = Resolved r
  /\ map fst (fetches (snd res)) = seq 0 (S k)
  /\ delays (snd res) = map (fun i => d * 2 ^ Z.of_nat i) (seq 0 k).
Proof. exact (makeRequest_recovers_core net url options config k r). Qed.

(** X3.  A call that rejects has used every attempt, and its error tells the
    caller little: it carries no HTTP status, is flagged retryable, and its
    code is TIMEOUT for an aborted fetch and NETWORK_ERROR for any other
    [Error], an HTTP error response included. *)
Theorem makeRequest_rejection
    (net : nat -> FetchOutcome) (url : string) (options : RequestInit)
    (config : RequestConfig) (e : option NetworkError) :
  let n := default API_RETRY_ATTEMPTS (retries config) in
  let res := makeRequest API_TIMEOUT API_RETRY_ATTEMPTS API_RETRY_DELAY
               USER_AGENT net url options config in
  fst res = Rejected e ->
  length (fetches (snd res)) = S n
  /\ (forall i, (i <= n)%nat -> attempt_fails (net i) = true)
  /\ exists err, e = Some err
       /\ status err = None
       /\ isRetryable err = true
       /\ isNetworkError err = true
       /\ (code err = Some "TIMEOUT"
           <-> exists msg, net n = RejectsError "AbortError" msg)
       /\ (forall st txt, net n = Responds st txt ->
             code err = Some "NETWORK_ERROR"
             /\ message err = "HTTP " +:+ pretty st +:+ ": " +:+ txt).
Proof.
  intros n res Hrej. subst res. unfold makeRequest in *. fold n in Hrej |- *.
  destruct (attempts_shape net url options (default API_TIMEOUT (timeout config))
              n (default API_RETRY_DELAY (retryDelay config))
              (spread (baseHeaders USER_AGENT) (opt_headers (headers config)))
              n 0%nat None eq_refl) as (j & Hj & Htr & Hf & Hout).
  rewrite Hrej in Hout. destruct Hout as (-> & -> & Hlast).
  cbn [Nat.add] in *. rewrite Htr.
  rewrite fetches_app, fetches_backoff, fetches_fetch, length_app, length_map,
    length_seq. cbn [length].
  split; [lia|]. split.
  { intros i Hi. destruct (Nat.eq_dec i n) as [->|Hne]; [exact Hlast|].
    apply Hf. lia. }
  eexists. split; [reflexivity|].
  destruct (net n) as [st txt|name msg|] eqn:Hn; cbn [propagated createError
    status isRetryable isNetworkError code message];
    repeat split; try reflexivity; try discriminate;
    try (intros [msg' Hm]; discriminate);
    try (intros st' txt' [= <- <-]; split; reflexivity);
    try (intros ? ? ?; discriminate).
  - match goal with
    | H : Responds _ _ = Responds _ _ |- _ => injection H as <- <-
    end.
    reflexivity.
  - case_bool_decide as Hname; [intros _| discriminate].
    subst name. eauto.
  - intros [msg' [= -> _]]. rewrite bool_decide_eq_true_2; reflexivity.
Qed.

Lemma makeRequest_sends_what_was_asked_core
    (net : nat -> FetchOutcome) (url : string) (options : RequestInit)
    (config : RequestConfig) :
  let res := makeRequest API_TIMEOUT API_RETRY_ATTEMPTS API_RETRY_DELAY
               USER_AGENT net url options config in
  Forall (fun nr =>
            let r := snd nr in
            req_url r = url /\ req_method r = method options
            /\ req_body r = body options
            /\ req_timeout r = default API_TIMEOUT (timeout config)
            /\ forall key,
                 req_headers r !! key =
                   match opt_headers (headers config) !! key with
                   | Some v => Some v
                   | None => baseHeaders USER_AGENT !! key
                   end)
         (fetches (snd res)).
Proof.
  intros res. subst res. unfold makeRequest.
  eapply Forall_impl; [apply attempts_requests|].
  intros [i r] Hr. simpl in *. subst r. cbn [request req_url req_method req_body
    req_timeout req_headers].
  repeat split. intros key. unfold spread.
  rewrite lookup_union. destruct (opt_headers (headers config) !! key) as [v|];
    [|now rewrite (left_id None _)].
  destruct (baseHeaders USER_AGENT !! key); reflexivity.
Qed.

(** X4.  Every fetch of a call, first try or retry, sends the request that was
    asked for: the same URL, method, body and timeout, and headers in which
    a header of the caller wins over the default of the same name. *)
Theorem makeRequest_sends_what_was_asked
    (net : nat -> FetchOutcome) (url : string) (options : RequestInit)
    (config : RequestConfig) :
  let res := makeRequest API_TIMEOUT API_RETRY_ATTEMPTS API_RETRY_DELAY
               USER_AGENT net url options config in
  Forall (fun nr =>
            let r := snd nr in
            req_url r = url /\ req_method r = method options
            /\ req_body r = body options
            /\ req_timeout r = default API_TIMEOUT (timeout config)
            /\ forall key,
                 req_headers r !! key =
                   match opt_headers (headers config) !! key with
                   | Some v => Some v
                   | None => baseHeaders USER_AGENT !! key
                   end)
         (fetches (snd res)).
Proof. exact (makeRequest_sends_what_was_asked_core net url options config). Qed.

Section Client.
Variable RORK_AI_BASE_URL : string.
Variable net : nat -> FetchOutcome.
Variable json : Response -> JS.Exn + JS.value.

(** A public method leaves the trace of its [makeRequest], and returns a
    value exactly when that resolves with a response whose body parses. *)
Lemma send_spec (url : string) (options : RequestInit) (config : RequestConfig) :
  let res := makeRequest API_TIMEOUT API_RETRY_ATTEMPTS API_RETRY_DELAY
               USER_AGENT net url options config in
  let out := send API_TIMEOUT API_RETRY_ATTEMPTS API_RETRY_DELAY
               USER_AGENT net json url options config in
  snd out = snd res
  /\ forall v, fst out = inr v <-> exists r, fst res = Resolved r /\ json r = inr v.
Proof.
  cbv zeta. unfold send.
  destruct (fst (makeRequest _ _ _ _ _ _ _ _)) as [r|e].
  - destruct (json r) as [ex|v'] eqn:Hj; cbn [fst snd]; split; try reflexivity;
      intros v; split.
    + discriminate.
    + intros (r' & [= <-] & Hv). congruence.
    + intros [= <-]. eauto.
    + intros (r' & [= <-] & Hv). congruence.
  - cbn [fst snd]. split; [reflexivity|]. intros v. split; [discriminate|].
    intros (r' & Hd & _). discriminate.
Qed.

(** X5.  [healthCheck] answers true exactly when the first attempt, or after a
    failed first attempt the second, is answered with a 2xx status and a
    body that parses; it makes at most two fetches, each a GET of the
    health URL with a timeout of 5000 ms. *)
Theorem healthCheck_spec :
  let res := healthCheck API_TIMEOUT API_RETRY_ATTEMPTS API_RETRY_DELAY
               USER_AGENT RORK_AI_BASE_URL net json in
  (fst res = true <->
     exists k r, (k <= 1)%nat
       /\ (forall i, (i < k)%nat -> attempt_fails (net i) = true)
       /\ response_of (net k) = Some r /\ ok r = true
       /\ exists v, json r = inr v)
  /\ (1 <= length (fetches (snd res)) <= 2)%nat
  /\ Forall (fun nr => req_timeout (snd nr) = 5000
                       /\ req_method (snd nr) = "GET"
                       /\ req_url (snd nr) = RORK_AI_BASE_URL +:+ "/health")
            (fetches (snd res)).
Proof.
  cbv zeta.
  set (cfg := {| timeout := Some 5000; retries := Some 1%nat; retryDelay := None;
                 headers := None; skipAuth := None |}).
  set (opts := {| method := "GET"; body := NoBody |}).
  set (url := RORK_AI_BASE_URL +:+ "/health").
  pose proof (send_spec url opts cfg) as [Htrace Hval]. cbv zeta in Htrace, Hval.
  pose proof (makeRequest_trace_shape_core net url opts cfg)
    as (j & rq & Hj & _ & Hidx & _).
  pose proof (makeRequest_sends_what_was_asked_core net url opts cfg) as Hsent.
  cbv zeta in Hj, Hidx, Hsent. simpl in Hj.
  assert (Hhc : healthCheck API_TIMEOUT API_RETRY_ATTEMPTS API_RETRY_DELAY
                  USER_AGENT RORK_AI_BASE_URL net json
                = (match fst (send API_TIMEOUT API_RETRY_ATTEMPTS API_RETRY_DELAY
                                USER_AGENT net json url opts cfg) with
                   | inr _ => true
                   | inl _ => false
                   end,
                   snd (send API_TIMEOUT API_RETRY_ATTEMPTS API_RETRY_DELAY
                          USER_AGENT net json url opts cfg))).
  { unfold healthCheck, get. cbn [default]. unfold id. fold cfg opts url.
    destruct (fst (send _ _ _ _ _ _ _ _ _)); reflexivity. }
  rewrite Hhc. cbn [fst snd]. rewrite Htrace.
  split; [|split].
  - split.
    + destruct (fst (send _ _ _ _ _ _ _ _ _)) as [f|v] eqn:Hs; [discriminate|].
      intros _. destruct (proj1 (Hval v) eq_refl) as (r & Hres & Hv).
      unfold makeRequest, cfg in Hres. cbn [default retries] in Hres.
      unfold id in Hres.
      match type of Hres with
      | fst (attempts ?nt ?u ?o ?t ?n ?d ?h _ _ _) = _ =>
          destruct (attempts_shape nt u o t n d h 1%nat 0%nat None eq_refl)
            as (k & Hk & _ & Hf & Hout)
      end.
      rewrite Hres in Hout. cbn [Nat.add] in *. destruct Hout as [Hr Hok].
      exists k, r. repeat split; eauto. intros i Hi. apply Hf. lia.
    + intros (k & r & Hk & Hf & Hr & Hok & v & Hv).
      assert (Hs : fst (send API_TIMEOUT API_RETRY_ATTEMPTS API_RETRY_DELAY
                          USER_AGENT net json url opts cfg) = inr v).
      { apply Hval. exists r. split; [|exact Hv].
        apply (makeRequest_recovers_core net url opts cfg k r); auto. }
      now rewrite Hs.
  - rewrite <- (length_map fst), Hidx, length_seq. lia.
  - eapply Forall_impl; [exact Hsent|]. intros nr (Hu & Hm & _ & Ht & _). auto.
Qed.

End Client.

End NetworkMore.

(* --------------------------------------------------------------------- *)
(** ** The Date object: a year on                                         *)
(* --------------------------------------------------------------------- *)

Section CalendarMore.
Import Calendar.




End CalendarMore.

(* --------------------------------------------------------------------- *)
(** ** SubscriptionService: trials, cancellation, the catalog             *)
(* --------------------------------------------------------------------- *)

Section SubscriptionMore.
Import Calendar Subscription SubscriptionQueries.

Ltac run_service :=
  cbv [getSubscriptionStatus startFreeTrial subscribeToPlan cancelSubscription
       getRemainingTrialDays hasPremiumAccess
       Eff.try_catch Eff.bind Eff.ret Eff.lift Eff.throw
       getItem setItem removeItem simulateSubscriptionAPI].

(** The catalog holds the two plans, found by their ids and by no other. *)
Lemma findPlan_cases (planId0 : string) :
  (planId0 = "premium_monthly" /\ findPlan planId0 = Some premium_monthly)
  \/ (planId0 = "premium_yearly" /\ findPlan planId0 = Some premium_yearly)
  \/ (planId0 <> "premium_monthly" /\ planId0 <> "premium_yearly"
      /\ findPlan planId0 = None).
Proof.
  unfold findPlan, plans. cbn [List.find id premium_monthly premium_yearly].
  destruct (decide ("premium_monthly" = planId0)) as [<-|Hm].
  - left. split; [reflexivity|]. now rewrite bool_decide_eq_true_2.
  - rewrite (bool_decide_eq_false_2 _ Hm).
    destruct (decide ("premium_yearly" = planId0)) as [<-|Hy].
    + right; left. split; [reflexivity|]. now rewrite bool_decide_eq_true_2.
    + rewrite (bool_decide_eq_false_2 _ Hy). right; right. auto.
Qed.

Lemma findPlan_Some (planId0 : string) (p : SubscriptionPlan) :
  findPlan planId0 = Some p ->
  id p = planId0 /\ In p plans /\ trialDays p = Some 7.
Proof.
  destruct (findPlan_cases planId0) as [[-> ->]|[[-> ->]|(_ & _ & ->)]];
    intros [= <-]; simpl; auto.
Qed.

Section Local.
Variable tza : TimeZone.

(** What a successful [startFreeTrial] has written. *)
Lemma startFreeTrial_writes (s s' : Storage)
    (planId0 : string) (api_ok : bool) (now now_started : Z) :
  startFreeTrial tza planId0 api_ok now now_started s
    = (inr {| success := true; error := None |}, s') ->
  findPlan planId0 <> None /\ api_ok = true
  /\ s' = <[TRIAL_STORAGE_KEY :=
              TrialItem {| planId := planId0; startedAt := now_started;
                           trial_expiresAt := daysLater tza now 7;
                           used := true |}]> s.
Proof.
  run_service.
  destruct (s !! TRIAL_STORAGE_KEY) as [[r|r]|]; simpl; try discriminate;
    [destruct (used r); try discriminate|];
    (destruct (findPlan planId0) as [pl|] eqn:Hp; [|discriminate];
     apply findPlan_Some in Hp as (_ & _ & ->);
     cbn [Z.eqb];
     destruct api_ok; [|discriminate];
     rewrite setDate_plus; intros [= <-]; auto).
Qed.


(** [Math.ceil] of a number of milliseconds in days: the least number of
    whole days that covers them. *)
Lemma ceil_days_spec (diffTime : Z) :
  (ceil_days diffTime - 1) * msPerDay < diffTime <= ceil_days diffTime * msPerDay.
Proof.
  unfold ceil_days, Qceiling, Qfloor, Qopp, msPerDay. cbn [Qnum Qden].
  pose proof (Z.div_mod (- diffTime) 86400000 ltac:(discriminate)).
  pose proof (Z.mod_pos_bound (- diffTime) 86400000 ltac:(lia)).
  lia.
Qed.

Lemma getRemainingTrialDays_spec_core (s : Storage)
    (paid : option StoredSubscription) (trial : option StoredTrial)
    (now_trial now_paid now : Z) :
  holds s paid trial ->
  exists d,
    getRemainingTrialDays now_trial now_paid now s = (inr d, s)
    /\ 0 <= d
    /\ (trial_active trial now_trial = false -> d = 0)
    /\ (forall t, trial = Some t -> now_trial < trial_expiresAt t ->
          now < trial_expiresAt t ->
          1 <= d
          /\ (d - 1) * msPerDay < trial_expiresAt t - now <= d * msPerDay).
Proof.
  intros H.
  destruct (getSubscriptionStatus_run s paid trial now_trial now_paid H)
    as (st & Hrun & _ & _ & _ & Hta & Hte).
  unfold getRemainingTrialDays, Eff.bind, Eff.ret. rewrite Hrun, Hta, Hte.
  destruct trial as [t|]; cbn [fmap option_fmap option_map trial_active].
  - destruct (Z.ltb_spec now_trial (trial_expiresAt t)) as [Hlt|Hge].
    + eexists. split; [reflexivity|]. split; [lia|]. split; [discriminate|].
      intros t' [= <-] _ Hnow.
      pose proof (ceil_days_spec (trial_expiresAt t - now)) as Hc.
      unfold msPerDay in *. split; [|lia]. nia.
    + exists 0. split; [reflexivity|]. split; [lia|]. split; [reflexivity|].
      intros t' [= <-] Hlt. lia.
  - exists 0. split; [reflexivity|]. split; [lia|]. split; [reflexivity|].
    intros t' [=].
Qed.

(** X7.  [getRemainingTrialDays] never changes the storage and never returns a
    negative number; it returns 0 when no trial is active at the read, and
    otherwise the least number of whole days that covers the time left. *)
Theorem getRemainingTrialDays_spec (s : Storage)
    (paid : option StoredSubscription) (trial : option StoredTrial)
    (now_trial now_paid now : Z) :
  holds s paid trial ->
  exists d,
    getRemainingTrialDays now_trial now_paid now s = (inr d, s)
    /\ 0 <= d
    /\ (trial_active trial now_trial = false -> d = 0)
    /\ (forall t, trial = Some t -> now_trial < trial_expiresAt t ->
          now < trial_expiresAt t ->
          1 <= d
          /\ (d - 1) * msPerDay < trial_expiresAt t - now <= d * msPerDay).
Proof. exact (getRemainingTrialDays_spec_core s paid trial now_trial now_paid now). Qed.


(** X9.  Cancelling removes the paid record only.  After a successful
    [cancelSubscription] a read returns no plan and no expiry, and
    [isActive] is true exactly while a stored trial is active; cancelling
    again changes nothing more.  A [cancelSubscription] whose billing call
    throws returns a failure and leaves the storage as it was. *)
Theorem cancelSubscription_then_read (s : Storage)
    (paid : option StoredSubscription) (trial : option StoredTrial)
    (now_trial now_paid : Z) :
  holds s paid trial ->
  let s' := snd (cancelSubscription true s) in
  fst (cancelSubscription true s) = inr {| success := true; error := None |}
  /\ holds s' None trial
  /\ (exists st,
        getSubscriptionStatus now_trial now_paid s' = (inr st, s')
        /\ plan st = None /\ expiresAt st = None
        /\ isActive st = trial_active trial now_trial)
  /\ snd (cancelSubscription true s') = s'
  /\ (exists msg,
        cancelSubscription false s
          = (inr {| success := false; error := Some msg |}, s)).
Proof.
  intros [Hp Ht]. cbv zeta.
  assert (Hs : cancelSubscription true s
               = (inr {| success := true; error := None |}, delete STORAGE_KEY s))
    by reflexivity.
  rewrite Hs. cbn [fst snd].
  assert (Hholds : holds (delete STORAGE_KEY s) None trial).
  { split.
    - apply lookup_delete_eq.
    - rewrite lookup_delete_ne by discriminate. exact Ht. }
  split; [reflexivity|]. split; [exact Hholds|]. split; [|split].
  - destruct (getSubscriptionStatus_run _ _ _ now_trial now_paid Hholds)
      as (st & Hrun & Hact & Hplan & Hexp & _).
    exists st. auto.
  - run_service. cbn [snd]. apply delete_id, lookup_delete_eq.
  - eexists. reflexivity.
Qed.

(** X10.  A plan id outside the catalog is refused before the billing call is
    made: [subscribeToPlan] answers that the plan is not found, and
    [startFreeTrial] that no trial is available (or that the trial was
    used, a check it makes first); nothing is written, whatever the
    billing call would have done. *)
Theorem unknown_plan_is_refused (s : Storage) (planId0 : string)
    (api_ok : bool) (now now_started : Z) :
  planId0 <> "premium_monthly" -> planId0 <> "premium_yearly" ->
  getPlan planId0 = None
  /\ subscribeToPlan tza planId0 api_ok now s
     = (inr {| success := false; error := Some "Plan not found." |}, s)
  /\ (forall t, s !! TRIAL_STORAGE_KEY = Some (TrialItem t) -> used t = false ->
        startFreeTrial tza planId0 api_ok now now_started s
        = (inr {| success := false;
                  error := Some "Trial not available for this plan." |}, s))
  /\ (s !! TRIAL_STORAGE_KEY = None ->
        startFreeTrial tza planId0 api_ok now now_started s
        = (inr {| success := false;
                  error := Some "Trial not available for this plan." |}, s))
  /\ (forall t, s !! TRIAL_STORAGE_KEY = Some (TrialItem t) -> used t = true ->
        startFreeTrial tza planId0 api_ok now now_started s
        = (inr {| success := false; error := Some trial_used_error |}, s)).
Proof.
  intros Hm Hy.
  destruct (findPlan_cases planId0) as [[-> _]|[[-> _]|(_ & _ & Hnone)]];
    try congruence.
  split; [exact Hnone|]. split; [|split; [|split]].
  - run_service. rewrite Hnone. reflexivity.
  - intros t Ht Hu. run_service. rewrite Ht. cbn [parseTrial]. rewrite Hu, Hnone.
    reflexivity.
  - intros Ht. run_service. rewrite Ht, Hnone. reflexivity.
  - intros t Ht Hu. now apply (startFreeTrial_used tza s t).
Qed.

(** What a successful [subscribeToPlan] has written: the flag, the catalog
    entry, and an expiry counted from the time of the call, whatever was
    stored before. *)
Lemma subscribeToPlan_writes (s : Storage) (p : SubscriptionPlan) (now : Z) :
  In p plans ->
  exists e,
    subscribeToPlan tza (id p) true now s
      = (inr {| success := true; error := None |},
         <[STORAGE_KEY :=
             SubscriptionItem {| stored_isActive := true; stored_plan := Some p;
                                 stored_expiresAt := Some e |}]> s)
    /\ e = match duration p with
           | monthly => setMonth tza now (getMonth tza now + 1)
           | yearly => setFullYear tza now (getFullYear tza now + 1)
           end.
Proof.
  intros [<-|[<-|[]]]; eexists; (split; reflexivity).
Qed.



(** X12.  Subscribing does not add to what was there: a successful
    [subscribeToPlan] leaves the storage it would leave had the earlier
    [subscribeToPlan], successful or not, never been made. *)
Theorem subscribeToPlan_replaces (s : Storage) (planId1 : string) (api_ok1 : bool)
    (now1 : Z) (p : SubscriptionPlan) (now2 : Z) :
  In p plans ->
  snd (subscribeToPlan tza (id p) true now2
         (snd (subscribeToPlan tza planId1 api_ok1 now1 s)))
  = snd (subscribeToPlan tza (id p) true now2 s).
Proof.
  intros Hp.
  destruct (subscribeToPlan_writes s p now2 Hp) as (e & Hw & He).
  destruct (subscribeToPlan_writes (snd (subscribeToPlan tza planId1 api_ok1 now1 s))
              p now2 Hp) as (e' & Hw' & He').
  rewrite Hw, Hw'. cbn [snd]. subst e e'.
  destruct (findPlan_cases planId1) as [[-> _]|[[-> _]|(_ & _ & Hnone)]].
  - destruct api_ok1.
    + destruct (subscribeToPlan_writes s premium_monthly now1 ltac:(simpl; auto))
        as (e1 & Hw1 & _).
      cbn [id premium_monthly] in Hw1. rewrite Hw1. cbn [snd]. apply insert_insert_eq.
    + reflexivity.
  - destruct api_ok1.
    + destruct (subscribeToPlan_writes s premium_yearly now1 ltac:(simpl; auto))
        as (e1 & Hw1 & _).
      cbn [id premium_yearly] in Hw1. rewrite Hw1. cbn [snd]. apply insert_insert_eq.
    + reflexivity.
  - run_service. rewrite Hnone. reflexivity.
Qed.

(** A call keeps the shape of what the service writes: under the
    subscription key nothing or a record with the flag set, a catalog plan
    and an expiry; under the trial key nothing or a used trial of a catalog
    plan. *)
Lemma after_keeps_written_by_service (c : Call) (s : Storage) :
  written_by_service s -> written_by_service (after tza c s).
Proof.
  intros [Hp Ht]. destruct c as [pid api now started|pid api now|api|n1 n2]; simpl.
  - destruct (startFreeTrial tza pid api now started s) as [[ex|[[|] err]] s'] eqn:Hrun.
    + revert Hrun. run_service.
      destruct (s !! TRIAL_STORAGE_KEY) as [[r|r]|]; simpl; try discriminate;
        try (destruct (used r)); try discriminate;
        destruct (findPlan pid) as [pl|]; try discriminate;
        destruct (trialDays pl) as [days|]; try discriminate;
        destruct (days =? 0); try discriminate;
        destruct api; discriminate.
    + destruct err as [msg|].
      * exfalso. revert Hrun. run_service.
        destruct (s !! TRIAL_STORAGE_KEY) as [[r|r]|]; simpl; try discriminate;
          try (destruct (used r)); try discriminate;
          destruct (findPlan pid) as [pl|]; try discriminate;
          destruct (trialDays pl) as [days|]; try discriminate;
          destruct (days =? 0); try discriminate;
          destruct api; discriminate.
      * apply startFreeTrial_writes in Hrun as (Hfound & _ & ->). cbn [snd].
        split.
        -- rewrite lookup_insert_ne by discriminate. exact Hp.
        -- right. eexists. split; [apply lookup_insert_eq|]. auto.
    + assert (s' = s) as ->; [|split; assumption].
      revert Hrun. run_service.
      destruct (s !! TRIAL_STORAGE_KEY) as [[r|r]|]; simpl;
        try (destruct (used r)); try (now intros [= <-]);
        destruct (findPlan pid) as [pl|]; try (now intros [= <-]);
        destruct (trialDays pl) as [days|]; try (now intros [= <-]);
        destruct (days =? 0); try (now intros [= <-]);
        destruct api; try (now intros [= <-]); discriminate.
  - destruct (findPlan_cases pid) as [[-> _]|[[-> _]|(_ & _ & Hnone)]].
    + destruct api; [|split; assumption].
      destruct (subscribeToPlan_writes s premium_monthly now ltac:(simpl; auto))
        as (e & Hw & _).
      cbn [id premium_monthly] in Hw. rewrite Hw. cbn [snd]. split.
      * right. exists premium_monthly, e. split; [simpl; auto|].
        apply lookup_insert_eq.
      * rewrite lookup_insert_ne by discriminate. exact Ht.
    + destruct api; [|split; assumption].
      destruct (subscribeToPlan_writes s premium_yearly now ltac:(simpl; auto))
        as (e & Hw & _).
      cbn [id premium_yearly] in Hw. rewrite Hw. cbn [snd]. split.
      * right. exists premium_yearly, e. split; [simpl; auto|].
        apply lookup_insert_eq.
      * rewrite lookup_insert_ne by discriminate. exact Ht.
    + run_service. rewrite Hnone. split; assumption.
  - destruct api; [|split; assumption]. run_service. cbn [snd]. split.
    + left. apply lookup_delete_eq.
    + rewrite lookup_delete_ne by discriminate. exact Ht.
  - assert (snd (getSubscriptionStatus n1 n2 s) = s) as ->; [|split; assumption].
    run_service.
    destruct (s !! STORAGE_KEY) as [[r|r]|], (s !! TRIAL_STORAGE_KEY) as [[r'|r']|];
      reflexivity.
Qed.

(** X13.  On a fresh installation and after any calls, the storage holds only
    what the service writes, so a read never falls into its [catch]:
    [isActive] is true exactly when the paid expiry, if any, is in the
    future and a paid record is stored or a trial is active. *)
Theorem storage_holds_what_the_service_writes (calls : list Call) :
  written_by_service (after_all tza calls ∅)
  /\ forall now_trial now_paid,
       let s := after_all tza calls ∅ in
       exists paid trial st,
         holds s paid trial
         /\ getSubscriptionStatus now_trial now_paid s = (inr st, s)
         /\ isActive st
            = negb (paid_expired paid now_paid)
              && (bool_decide (paid <> None) || trial_active trial now_trial).
Proof.
  assert (Hinv : forall cs s, written_by_service s ->
                   written_by_service (after_all tza cs s)).
  { induction cs as [|c cs IH]; intros s Hs; [exact Hs|].
    unfold after_all in *. simpl. apply IH. now apply after_keeps_written_by_service. }
  assert (H0 : written_by_service ∅).
  { split; left; apply lookup_empty. }
  pose proof (Hinv calls ∅ H0) as Hw.
  split; [exact Hw|]. intros now_trial now_paid. cbv zeta.
  destruct Hw as [Hp Ht].
  set (s := after_all tza calls ∅) in *.
  assert (exists paid trial, holds s paid trial /\ paid_flag paid = bool_decide (paid <> None))
    as (paid & trial & Hholds & Hflag).
  { destruct Hp as [Hp|(p & e & _ & Hp)], Ht as [Ht|(t & Ht & _)].
    - exists None, None. repeat split; auto.
    - exists None, (Some t). repeat split; auto.
    - eexists (Some _), None. split; [split; [exact Hp | exact Ht]|]. reflexivity.
    - eexists (Some _), (Some t). split; [split; [exact Hp | exact Ht]|]. reflexivity. }
  destruct (getSubscriptionStatus_run s paid trial now_trial now_paid Hholds)
    as (st & Hrun & Hact & _).
  exists paid, trial, st. split; [exact Hholds|]. split; [exact Hrun|].
  rewrite Hact, Hflag. destruct (paid_expired paid now_paid); reflexivity.
Qed.

(** X14.  A trial started after a paid subscription has lapsed does not give
    access: with the lapsed record still stored, a read during the trial
    reports the trial as active and [isActive] false, and
    [hasPremiumAccess] is false.  In a zone whose offsets are no more than
    [drift] apart the subscription has lapsed once 31 days and [drift]
    have passed, and the trial runs for seven days less [drift] at
    least. *)
Theorem trial_after_lapsed_subscription (s s2 : Storage)
    (planId0 : string) (api_ok : bool)
    (now1 now2 now_started now_trial now_paid drift : Z) :
  let s1 := snd (subscribeToPlan tza "premium_monthly" true now1 s) in
  s !! TRIAL_STORAGE_KEY = None ->
  offsets_within tza drift ->
  startFreeTrial tza planId0 api_ok now2 now_started s1
    = (inr {| success := true; error := None |}, s2) ->
  now1 + 31 * msPerDay + drift <= now_paid ->
  now_trial < now2 + 7 * msPerDay - drift ->
  exists st,
    getSubscriptionStatus now_trial now_paid s2 = (inr st, s2)
    /\ isTrialActive st = Some true
    /\ isActive st = false
    /\ hasPremiumAccess now_trial now_paid s2 = (inr false, s2).
Proof.
  cbv zeta. intros Hnone Hzone Hstart Hlapsed Htrial.
  pose proof (setMonth_next_range tza drift now1 Hzone) as He.
  pose proof (daysLater_within tza drift now2 7 Hzone) as Hte.
  set (e := setMonth tza now1 (getMonth tza now1 + 1)) in *.
  rewrite (subscribeToPlan_monthly_success tza s _ true now1
             (surjective_pairing _)) in Hstart.
  fold e in Hstart.
  apply startFreeTrial_writes in Hstart as (_ & _ & ->).
  set (paid := {| stored_isActive := true; stored_plan := Some premium_monthly;
                  stored_expiresAt := Some e |}).
  set (t := {| planId := planId0; startedAt := now_started;
               trial_expiresAt := daysLater tza now2 7; used := true |}).
  assert (Hholds : holds (<[TRIAL_STORAGE_KEY := TrialItem t]>
                            (<[STORAGE_KEY := SubscriptionItem paid]> s))
                     (Some paid) (Some t)).
  { split.
    - rewrite lookup_insert_ne by discriminate. apply lookup_insert_eq.
    - apply lookup_insert_eq. }
  destruct (getSubscriptionStatus_run _ _ _ now_trial now_paid Hholds)
    as (st & Hrun & Hact & _ & _ & Hta & _).
  assert (Hexp : paid_expired (Some paid) now_paid = true).
  { cbn [paid_expired paid stored_expiresAt]. apply Z.leb_le. lia. }
  rewrite Hexp in Hact.
  exists st. split; [exact Hrun|]. split.
  { rewrite Hta. cbn [fmap option_fmap option_map t trial_expiresAt].
    f_equal. apply Z.ltb_lt. lia. }
  split; [exact Hact|].
  unfold hasPremiumAccess, Eff.bind, Eff.ret. rewrite Hrun, Hact. reflexivity.
Qed.

End Local.

End SubscriptionMore.

(* --------------------------------------------------------------------- *)
(** ** AIService: what every result has in common                         *)
(* --------------------------------------------------------------------- *)

Section AIMore.
Import JS Eff AI.

Ltac step_draw :=
  match goal with
  | |- context [Eff.bind (random_below ?n) ?f ?g] =>
      let k := fresh "k" in
      let Hk := fresh "Hk" in
      let Hr := fresh "Hr" in
      destruct (random_below_run n g ltac:(simpl; lia)) as (k & Hr & Hk);
      rewrite (bind_run (random_below n) f g k _ Hr); clear Hr; cbv beta
  end.

Lemma index_in (arr : list string) (i : Z) :
  0 <= i < Z.of_nat (length arr) ->
  exists s, index arr i = VStr s /\ In s arr.
Proof.
  intros [Hlo Hhi]. unfold index.
  destruct (Z.ltb_spec i 0); [lia|].
  destruct (nth_error arr (Z.to_nat i)) as [s|] eqn:Hn.
  - exists s. split; [reflexivity|]. eapply nth_error_In; eauto.
  - apply nth_error_None in Hn. lia.
Qed.

Lemma getMockGlowAnalysis_ranges_core (g : Rng) :
  exists r overall jaw bright hydr sym potential quality tone type_ ai,
    getMockGlowAnalysis g
      = (inr r, {| draws := draws g; cursor := (9 + cursor g)%nat |})
    /\ overallScore r = num overall /\ glowScore r = num overall
    /\ 70 <= overall <= 99
    /\ jawlineScore r = num jaw /\ 70 <= jaw <= 94
    /\ brightness r = num bright /\ 65 <= bright <= 94
    /\ hydration r = num hydr /\ 55 <= hydr <= 94
    /\ symmetryScore r = num sym /\ 75 <= sym <= 94
    /\ skinPotential r = VStr potential /\ In potential ["High"; "Medium"; "Low"]
    /\ skinQuality r = VStr quality
    /\ In quality ["Excellent"; "Good"; "Fair"; "Needs Improvement"]
    /\ skinTone r = VStr tone
    /\ In tone ["Warm Beige"; "Cool Ivory"; "Olive Medium"; "Deep Caramel";
                "Golden Tan"; "Porcelain Fair"]
    /\ skinType r = VStr type_
    /\ In type_ ["Normal"; "Dry"; "Oily"; "Combination"; "Sensitive"]
    /\ aiTips r = strings ai /\ length ai = 5%nat
    /\ tips r = strings (firstn 3 ai).
Proof.
  unfold getMockGlowAnalysis.
  do 9 step_draw.
  destruct (index_in ["High"; "Medium"; "Low"] k0 ltac:(simpl in *; lia)) as (sp & Hsp & Hisp).
  destruct (index_in ["Excellent"; "Good"; "Fair"; "Needs Improvement"] k1
              ltac:(simpl in *; lia)) as (sq & Hsq & Hisq).
  destruct (index_in ["Warm Beige"; "Cool Ivory"; "Olive Medium"; "Deep Caramel";
                      "Golden Tan"; "Porcelain Fair"] k3 ltac:(simpl in *; lia))
    as (st & Hst & Hist).
  destruct (index_in ["Normal"; "Dry"; "Oily"; "Combination"; "Sensitive"] k4
              ltac:(simpl in *; lia)) as (sy & Hsy & Hisy).
  eexists _, (k + 70), (k2 + 70), (k5 + 65), (k6 + 55), (k7 + 75), sp, sq, st, sy, _.
  split; [reflexivity|].
  cbn [overallScore glowScore jawlineScore brightness hydration symmetryScore
       skinPotential skinQuality skinTone skinType aiTips tips].
  rewrite Hsp, Hsq, Hst, Hsy.
  repeat split; try reflexivity; try assumption; lia.
Qed.

(** X15.  The mock face analysis: nine draws; the overall score is between 70 and
    99 and doubles as the glow score, the other scores stay within the
    bounds below; every label is one of the listed strings (no index falls
    outside its array); the tips are the first three of the five AI tips. *)
Theorem getMockGlowAnalysis_ranges (g : Rng) :
  exists r overall jaw bright hydr sym potential quality tone type_ ai,
    getMockGlowAnalysis g
      = (inr r, {| draws := draws g; cursor := (9 + cursor g)%nat |})
    /\ overallScore r = num overall /\ glowScore r = num overall
    /\ 70 <= overall <= 99
    /\ jawlineScore r = num jaw /\ 70 <= jaw <= 94
    /\ brightness r = num bright /\ 65 <= bright <= 94
    /\ hydration r = num hydr /\ 55 <= hydr <= 94
    /\ symmetryScore r = num sym /\ 75 <= sym <= 94
    /\ skinPotential r = VStr potential /\ In potential ["High"; "Medium"; "Low"]
    /\ skinQuality r = VStr quality
    /\ In quality ["Excellent"; "Good"; "Fair"; "Needs Improvement"]
    /\ skinTone r = VStr tone
    /\ In tone ["Warm Beige"; "Cool Ivory"; "Olive Medium"; "Deep Caramel";
                "Golden Tan"; "Porcelain Fair"]
    /\ skinType r = VStr type_
    /\ In type_ ["Normal"; "Dry"; "Oily"; "Combination"; "Sensitive"]
    /\ aiTips r = strings ai /\ length ai = 5%nat
    /\ tips r = strings (firstn 3 ai).
Proof. exact (getMockGlowAnalysis_ranges_core g). Qed.

Section Results.
Variable JSON_parse : string -> option value.

(** X16.  Whatever the completion and the collaborators, [analyzeGlow] returns a
    result whose glow score is its overall score and whose tips are its AI
    tips, or the first three of them; a result decoded from the completion
    uses no random draw. *)
Theorem analyzeGlow_result_invariants (env : Env) (g : Rng) :
  exists r g',
    analyzeGlow JSON_parse env g = (inr r, g')
    /\ glowScore r = overallScore r
    /\ (tips r = aiTips r
        \/ exists ai, aiTips r = strings ai /\ tips r = strings (firstn 3 ai))
    /\ ((exists completion,
           llm env = LlmCompletion completion
           /\ parseGlowAnalysis_try JSON_parse completion = inr r /\ g' = g)
        \/ g' = {| draws := draws g; cursor := (9 + cursor g)%nat |}).
Proof.
  destruct (analyzeGlow_cases JSON_parse env g) as [(c & r & Hc & Hr & ->) | [_ ->]].
  - exists r, g. split; [reflexivity|].
    assert (Hshape : glowScore r = overallScore r /\ tips r = aiTips r).
    { revert Hr. unfold parseGlowAnalysis_try.
      destruct (parse JSON_parse c) as [e|v]; [discriminate|].
      destruct (get v "overallScore"); [discriminate|].
      destruct (comprehensive_format v); [|destruct (old_format v)];
        [| |discriminate]; intros [= <-]; split; reflexivity. }
    destruct Hshape. split; [assumption|]. split; [now left|]. left. eauto.
  - destruct (getMockGlowAnalysis_ranges_core g)
      as (r & overall & jaw & bright & hydr & sym & po & qu & to & ty & ai & Hrun
          & Ho & Hg & _ & _ & _ & _ & _ & _ & _ & _ & _ & _ & _ & _ & _
          & _ & _ & _ & _ & Hai & _ & Htips).
    eexists r, _. split; [exact Hrun|]. split; [congruence|].
    split; [right; eauto | now right].
Qed.

(** X17.  [generateCoachingPlan] always returns a plan, draws no random number,
    and the plan carries the goal of the caller and an id made of the
    clock reading.  It is either the synthesized plan or decoded from a
    completion whose [dailyTasks] and [tips] are arrays; a decoded plan has
    a duration that is never falsy (30 unless the completion gives one)
    and expected results that are never [null] or absent. *)
Theorem generateCoachingPlan_returns
    (env : Env) (now : Z) (goal0 : string) (currentGlowScore : Q) (g : Rng) :
  exists plan,
    generateCoachingPlan JSON_parse env now goal0 currentGlowScore g = (inr plan, g)
    /\ (plan = Synthesized (getMockCoachingPlan now goal0)
        /\ plan_fallback JSON_parse env now goal0 = true
        \/ exists du dt tp er,
             plan = Decoded ("plan-" +:+ pretty now) goal0 du dt tp er
             /\ plan_fallback JSON_parse env now goal0 = false
             /\ isArray dt = true /\ isArray tp = true
             /\ truthy du = true /\ present er = true).
Proof.
  unfold plan_fallback.
  destruct env as [up b64 [|txt|completion]];
    cbv [generateCoachingPlan fetch_completion parseCoachingPlan
         try_catch Eff.bind ret throw lift llm]; try (eexists; split; [reflexivity|]; now left).
  destruct (parseCoachingPlan_try JSON_parse now completion goal0) as [e|plan] eqn:Hp.
  - eexists; split; [reflexivity|]. now left.
  - exists plan. split; [reflexivity|]. right.
    revert Hp. unfold parseCoachingPlan_try.
    destruct (parse JSON_parse completion) as [e|v]; [discriminate|].
    destruct (get v "dailyTasks"); [discriminate|].
    destruct (isArray (prop v "dailyTasks")) eqn:Hd; [|discriminate].
    destruct (isArray (prop v "tips")) eqn:Ht; [|discriminate].
    intros [= <-]. eexists _, _, _, _. split; [reflexivity|].
    repeat split; auto.
    + unfold or. destruct (truthy (prop v "duration")) eqn:Hdu; [exact Hdu|reflexivity].
    + apply present_or. reflexivity.
Qed.

End Results.

End AIMore.

(* --------------------------------------------------------------------- *)
(** ** AIService: hashString                                              *)
(* --------------------------------------------------------------------- *)

Section HashFacts.
Import Hash.

Lemma toInt32_range (z : Z) : - 2 ^ 31 <= toInt32 z < 2 ^ 31.
Proof.
  unfold toInt32.
  pose proof (Z.mod_pos_bound (z + 2 ^ 31) (2 ^ 32) ltac:(lia)). lia.
Qed.

Lemma toInt32_mod (z : Z) : toInt32 z mod 2 ^ 32 = z mod 2 ^ 32.
Proof.
  unfold toInt32.
  rewrite <- (Zminus_mod_idemp_l ((z + 2 ^ 31) mod 2 ^ 32)), Z.mod_mod by lia.
  rewrite Zminus_mod_idemp_l. f_equal. lia.
Qed.

Lemma toInt32_congr (a b : Z) :
  a mod 2 ^ 32 = b mod 2 ^ 32 -> toInt32 a = toInt32 b.
Proof.
  intros H. unfold toInt32.
  rewrite <- (Zplus_mod_idemp_l a), <- (Zplus_mod_idemp_l b), H. reflexivity.
Qed.

(** In range, [ToInt32] changes nothing. *)
Lemma toInt32_id (z : Z) : - 2 ^ 31 <= z < 2 ^ 31 -> toInt32 z = z.
Proof.
  intros H. unfold toInt32. rewrite Z.mod_small by lia. lia.
Qed.

(** One iteration multiplies by 31 and adds the code unit, modulo 2^32. *)
Lemma hashStep_spec (hash char : Z) :
  hashStep hash char = toInt32 (31 * hash + char).
Proof.
  unfold hashStep. rewrite Z.land_diag.
  rewrite (toInt32_id (toInt32 _)) by apply toInt32_range.
  apply toInt32_congr.
  rewrite Z.shiftl_mul_pow2 by lia.
  rewrite <- Zplus_mod_idemp_l, <- Zminus_mod_idemp_l, toInt32_mod.
  rewrite <- (Zmult_mod_idemp_l (toInt32 hash)), toInt32_mod, Zmult_mod_idemp_l.
  rewrite Zminus_mod_idemp_l, Zplus_mod_idemp_l. f_equal. lia.
Qed.

Lemma poly31_congr (codes : list Z) : forall a b,
  a mod 2 ^ 32 = b mod 2 ^ 32 ->
  poly31 a codes mod 2 ^ 32 = poly31 b codes mod 2 ^ 32.
Proof.
  induction codes as [|c rest IH]; intros a b H; [exact H|].
  cbn [poly31]. apply IH.
  rewrite <- Zplus_mod_idemp_l, <- Zmult_mod_idemp_r, H.
  rewrite Zmult_mod_idemp_r, Zplus_mod_idemp_l. reflexivity.
Qed.

Lemma fold_left_cons {A B} (f : A -> B -> A) (b : B) (l : list B) (a : A) :
  fold_left f (b :: l) a = fold_left f l (f a b).
Proof. reflexivity. Qed.

Lemma poly31_cons (c : Z) (rest : list Z) (a : Z) :
  poly31 a (c :: rest) = poly31 (31 * a + c) rest.
Proof. reflexivity. Qed.

Lemma fold_hashStep (codes : list Z) : forall h,
  fold_left hashStep codes (toInt32 h) = toInt32 (poly31 h codes).
Proof.
  induction codes as [|c rest IH]; intros h.
  { exact (eq_refl (toInt32 h)). }
  rewrite fold_left_cons, poly31_cons, hashStep_spec.
  rewrite IH. apply toInt32_congr, poly31_congr.
  rewrite <- Zplus_mod_idemp_l, <- Zmult_mod_idemp_r, toInt32_mod.
  rewrite Zmult_mod_idemp_r, Zplus_mod_idemp_l. reflexivity.
Qed.

Lemma poly31_app (l l' : list Z) : forall a,
  poly31 a (l ++ l') = poly31 (poly31 a l) l'.
Proof.
  induction l as [|c l IH]; intros a; [reflexivity|]. cbn [app poly31]. apply IH.
Qed.

Lemma hashCodes_spec_core (codes : list Z) (c : Z) :
  hashCodes codes = toInt32 (poly31 0 codes)
  /\ - 2 ^ 31 <= hashCodes codes < 2 ^ 31
  /\ hashCodes codes mod 2 ^ 32 = poly31 0 codes mod 2 ^ 32
  /\ hashCodes [] = 0
  /\ hashCodes (codes ++ [c]) = toInt32 (31 * hashCodes codes + c).
Proof.
  assert (H : forall l, hashCodes l = toInt32 (poly31 0 l)).
  { intros l. unfold hashCodes.
    rewrite <- (toInt32_id 0) at 1 by lia. apply fold_hashStep. }
  split; [apply H|]. split; [rewrite H; apply toInt32_range|].
  split; [rewrite H; apply toInt32_mod|]. split; [reflexivity|].
  rewrite !H, poly31_app, poly31_cons. apply toInt32_congr.
  rewrite <- Zplus_mod_idemp_l, <- Zmult_mod_idemp_r, toInt32_mod.
  rewrite Zmult_mod_idemp_r, Zplus_mod_idemp_l. reflexivity.
Qed.

(** X18.  The hash of [hashString] is the polynomial hash with multiplier 31 of
    the code units, wrapped into the signed 32-bit range: for a string
    [c1 ... cn] the value [c1 * 31^(n-1) + ... + cn] modulo 2^32.  Appending
    a code unit to a string multiplies its hash by 31 and adds the unit,
    wrapped again. *)
Theorem hashCodes_spec (codes : list Z) (c : Z) :
  hashCodes codes = toInt32 (poly31 0 codes)
  /\ - 2 ^ 31 <= hashCodes codes < 2 ^ 31
  /\ hashCodes codes mod 2 ^ 32 = poly31 0 codes mod 2 ^ 32
  /\ hashCodes [] = 0
  /\ hashCodes (codes ++ [c]) = toInt32 (31 * hashCodes codes + c).
Proof. exact (hashCodes_spec_core codes c). Qed.

(** *** The text of a hash *)

Lemma digit36_spec (d : Z) :
  0 <= d < 36 -> value36 (digit36 d) = d /\ is_digit36 (digit36 d) = true.
Proof.
  intros Hd. unfold value36, is_digit36, digit36.
  destruct (Z.ltb_spec d 10).
  - rewrite Ascii.nat_ascii_embedding by lia. rewrite Z2Nat.id by lia.
    destruct (Z.ltb_spec (48 + d) 58); [|lia]. split; [lia|].
    destruct (Z.leb_spec 48 (48 + d)), (Z.leb_spec (48 + d) 57);
      try lia; reflexivity.
  - rewrite Ascii.nat_ascii_embedding by lia. rewrite Z2Nat.id by lia.
    destruct (Z.ltb_spec (87 + d) 58); [lia|]. split; [lia|].
    destruct (Z.leb_spec 48 (87 + d)), (Z.leb_spec (87 + d) 57),
      (Z.leb_spec 97 (87 + d)), (Z.leb_spec (87 + d) 122);
      try lia; reflexivity.
Qed.

Lemma toString36_go_O (n : Z) (acc : string) :
  toString36_go 0 n acc = String (digit36 (n mod 36)) acc.
Proof. reflexivity. Qed.

Lemma toString36_go_S (fuel : nat) (n : Z) (acc : string) :
  toString36_go (S fuel) n acc =
    if n <? 36 then String (digit36 (n mod 36)) acc
    else toString36_go fuel (n / 36) (String (digit36 (n mod 36)) acc).
Proof. reflexivity. Qed.

Lemma digits_of_one (n : Z) : 0 <= n < 36 -> digits_of n [digit36 (n mod 36)].
Proof.
  intros Hn. rewrite Z.mod_small by lia.
  destruct (digit36_spec n Hn) as [Hv Hd].
  unfold digits_of. cbn [length fold_left]. rewrite Hv.
  split; [repeat constructor; exact Hd|]. split; [intros a; lia|].
  split; [lia|]. split; [lia|].
  destruct (Z.eq_dec n 0); [right; auto | left; simpl; lia].
Qed.

Lemma toString36_go_spec (fuel : nat) : forall n acc,
  0 <= n < 36 ^ (Z.of_nat fuel + 1) ->
  exists ds, list_ascii_of_string (toString36_go fuel n acc)
             = ds ++ list_ascii_of_string acc
             /\ digits_of n ds.
Proof.
  induction fuel as [|fuel IH]; intros n acc Hn.
  - rewrite toString36_go_O. exists [digit36 (n mod 36)].
    split; [reflexivity|]. apply digits_of_one. simpl in Hn. lia.
  - rewrite toString36_go_S. destruct (Z.ltb_spec n 36) as [Hlt|Hge].
    + exists [digit36 (n mod 36)]. split; [reflexivity|].
      apply digits_of_one. lia.
    + assert (Hq : 0 <= n / 36 < 36 ^ (Z.of_nat fuel + 1)).
      { split; [apply Z.div_pos; lia|].
        apply Z.div_lt_upper_bound; [lia|].
        rewrite Nat2Z.inj_succ in Hn.
        replace (Z.succ (Z.of_nat fuel) + 1) with (Z.succ (Z.of_nat fuel + 1)) in Hn
          by lia.
        rewrite Z.pow_succ_r in Hn by lia. lia. }
      destruct (IH (n / 36) (String (digit36 (n mod 36)) acc) Hq)
        as (ds & Hds & Hall & Hval & Hlen & Hup & Hlow).
      exists (ds ++ [digit36 (n mod 36)]). split.
      { rewrite Hds. cbn [list_ascii_of_string]. now rewrite <- app_assoc. }
      pose proof (Z.mod_pos_bound n 36 ltac:(lia)) as Hm.
      destruct (digit36_spec (n mod 36) Hm) as [Hv Hd].
      pose proof (Z.div_mod n 36 ltac:(lia)) as Hdm.
      unfold digits_of. rewrite length_app. cbn [length].
      replace (Z.of_nat (length ds + 1)) with (Z.succ (Z.of_nat (length ds))) by lia.
      rewrite Z.pow_succ_r by lia.
      assert (Hpos : 0 < 36 ^ Z.of_nat (length ds)) by (apply Z.pow_pos_nonneg; lia).
      split; [apply Forall_app; split; [exact Hall | repeat constructor; exact Hd]|].
      split.
      { intros a. rewrite fold_left_app, Hval. cbn [fold_left]. rewrite Hv. nia. }
      split; [lia|]. split; [nia|]. left.
      replace (Z.succ (Z.of_nat (length ds)) - 1) with (Z.of_nat (length ds)) by lia.
      destruct Hlow as [Hlow|[Hz Hone]].
      * replace (Z.of_nat (length ds)) with (Z.succ (Z.of_nat (length ds) - 1)) by lia.
        rewrite Z.pow_succ_r by lia. nia.
      * rewrite Hone. simpl. lia.
Qed.

(** X19.  The text of a hash is the absolute value of the 32-bit hash written in
    base 36: between one and six characters, each a digit or a lower-case
    letter, that read back as that value, with no leading zero. *)
Theorem hashString_text (str : string) :
  let text := list_ascii_of_string (hashString str) in
  let h := hashCodes (charCodes str) in
  parse36 (hashString str) = Z.abs h
  /\ Forall (fun a => is_digit36 a = true) text
  /\ (1 <= length text <= 6)%nat
  /\ (Z.abs h = 0 \/ 36 ^ (Z.of_nat (length text) - 1) <= Z.abs h).
Proof.
  cbv zeta. unfold hashString, toString36, parse36.
  set (n := Z.abs (hashCodes (charCodes str))).
  assert (Hn : 0 <= n <= 2 ^ 31).
  { subst n. destruct (hashCodes_spec_core (charCodes str) 0) as (_ & Hr & _). lia. }
  assert (Hfuel : 0 <= n < 36 ^ (Z.of_nat (Z.to_nat (Z.log2 n)) + 1)).
  { split; [lia|]. rewrite Z2Nat.id by apply Z.log2_nonneg.
    destruct (Z.eq_dec n 0) as [->|Hne]; [reflexivity|].
    pose proof (Z.log2_spec n ltac:(lia)) as [_ Hlt].
    eapply Z.lt_le_trans; [exact Hlt|].
    replace (Z.succ (Z.log2 n)) with (Z.log2 n + 1) by lia.
    apply Z.pow_le_mono_l. lia. }
  destruct (toString36_go_spec _ n EmptyString Hfuel)
    as (ds & Hds & Hall & Hval & Hlen & Hup & Hlow).
  cbn [list_ascii_of_string] in Hds. rewrite app_nil_r in Hds. rewrite Hds.
  split; [rewrite Hval; lia|]. split; [exact Hall|].
  assert (Hsix : (length ds <= 6)%nat).
  { destruct Hlow as [Hlow|[_ ->]]; [|lia].
    destruct (Nat.le_gt_cases (length ds) 6) as [|Hgt]; [assumption|exfalso].
    assert (36 ^ 6 <= 36 ^ (Z.of_nat (length ds) - 1))
      by (apply Z.pow_le_mono_r; lia).
    assert (2 ^ 31 < 36 ^ 6) by reflexivity. lia. }
  split; [lia|]. destruct Hlow as [Hlow|[Hz _]]; [right; exact Hlow | left; exact Hz].
Qed.

End HashFacts.

(* --------------------------------------------------------------------- *)
(** ** Concrete calls                                                     *)
(* --------------------------------------------------------------------- *)

(** A call that meets a 503, then a timeout, then a 200. *)
Lemma makeRequest_recovers_witness :
  let net := fun n : nat =>
               match n with
               | O => Network.Responds 503 "Service Unavailable"
               | S O => Network.RejectsError "AbortError" "Aborted"
               | _ => Network.Responds 200 "OK"
               end in
  let res := Network.makeRequest 30000 3%nat 1000 "GlowCheck/1.0.0" net
               "https://toolkit.rork.com/text/llm/"
               {| Network.method := "GET"; Network.body := Network.NoBody |}
               Network.noConfig in
  fst res = Network.Resolved {| Network.resp_status := 200;
                                Network.resp_statusText := "OK" |}
  /\ map fst (Network.fetches (snd res)) = [0; 1; 2]%nat
  /\ Network.delays (snd res) = [1000; 2000].
Proof.
  cbv zeta.
  apply (makeRequest_recovers 30000 3%nat 1000 "GlowCheck/1.0.0"
           (fun n : nat =>
              match n with
              | O => Network.Responds 503 "Service Unavailable"
              | S O => Network.RejectsError "AbortError" "Aborted"
              | _ => Network.Responds 200 "OK"
              end)
           "https://toolkit.rork.com/text/llm/"
           {| Network.method := "GET"; Network.body := Network.NoBody |}
           Network.noConfig 2%nat
           {| Network.resp_status := 200; Network.resp_statusText := "OK" |}).
  - simpl. lia.
  - intros [|[|i]] Hi; [reflexivity | reflexivity | lia].
  - reflexivity.
  - reflexivity.
Defined.

(** A call whose two attempts both time out. *)
Lemma makeRequest_rejection_witness :
  let res := Network.makeRequest 30000 3%nat 1000 "GlowCheck/1.0.0"
               (fun _ => Network.RejectsError "AbortError" "Aborted")
               "https://toolkit.rork.com/health"
               {| Network.method := "GET"; Network.body := Network.NoBody |}
               {| Network.timeout := Some 5000; Network.retries := Some 1%nat;
                  Network.retryDelay := None; Network.headers := None;
                  Network.skipAuth := None |} in
  length (Network.fetches (snd res)) = 2%nat.
Proof.
  cbv zeta.
  apply (makeRequest_rejection 30000 3%nat 1000 "GlowCheck/1.0.0"
           (fun _ => Network.RejectsError "AbortError" "Aborted")
           "https://toolkit.rork.com/health"
           {| Network.method := "GET"; Network.body := Network.NoBody |}
           {| Network.timeout := Some 5000; Network.retries := Some 1%nat;
              Network.retryDelay := None; Network.headers := None;
              Network.skipAuth := None |}
           (Some (Network.createError "Aborted" None (Some "TIMEOUT")))).
  vm_compute. reflexivity.
Defined.


(** Two and a half days of a trial left: three days are reported. *)
Lemma getRemainingTrialDays_spec_witness :
  let now := 1700000000000 in
  let trial := {| Subscription.planId := "premium_monthly";
                  Subscription.startedAt := now - 388800000;
                  Subscription.trial_expiresAt := now + 216000000;
                  Subscription.used := true |} in
  let s : Subscription.Storage :=
    <[Subscription.TRIAL_STORAGE_KEY := Subscription.TrialItem trial]> ∅ in
  SubscriptionQueries.getRemainingTrialDays now now now s = (inr 3, s).
Proof.
  cbv zeta.
  destruct (getRemainingTrialDays_spec
              (<[Subscription.TRIAL_STORAGE_KEY :=
                   Subscription.TrialItem
                     {| Subscription.planId := "premium_monthly";
                        Subscription.startedAt := 1700000000000 - 388800000;
                        Subscription.trial_expiresAt := 1700000000000 + 216000000;
                        Subscription.used := true |}]> ∅)
              None
              (Some {| Subscription.planId := "premium_monthly";
                       Subscription.startedAt := 1700000000000 - 388800000;
                       Subscription.trial_expiresAt := 1700000000000 + 216000000;
                       Subscription.used := true |})
              1700000000000 1700000000000 1700000000000)
    as (d & Hrun & _ & _ & Hceil).
  - split.
    + rewrite lookup_insert_ne by discriminate. apply lookup_empty.
    + apply lookup_insert_eq.
  - rewrite Hrun. f_equal. f_equal.
    destruct (Hceil _ eq_refl) as (_ & Hlo & Hhi);
      [reflexivity | reflexivity |].
    simpl in Hlo, Hhi. unfold Calendar.msPerDay in *. lia.
Defined.


(** A cancelled subscription while a trial still runs. *)
Lemma cancelSubscription_then_read_witness :
  let now := 1700000000000 in
  let paid := {| Subscription.stored_isActive := true;
                 Subscription.stored_plan := Some Subscription.premium_monthly;
                 Subscription.stored_expiresAt := Some (now + 10 * Calendar.msPerDay) |} in
  let trial := {| Subscription.planId := "premium_monthly";
                  Subscription.startedAt := now - 2 * Calendar.msPerDay;
                  Subscription.trial_expiresAt := now + 5 * Calendar.msPerDay;
                  Subscription.used := true |} in
  let s : Subscription.Storage :=
    <[Subscription.STORAGE_KEY := Subscription.SubscriptionItem paid]>
      (<[Subscription.TRIAL_STORAGE_KEY := Subscription.TrialItem trial]> ∅) in
  let s' := snd (Subscription.cancelSubscription true s) in
  exists st,
    Subscription.getSubscriptionStatus now now s' = (inr st, s')
    /\ Subscription.plan st = None
    /\ Subscription.isActive st = true.
Proof.
  cbv zeta.
  match goal with
  | |- exists st, Subscription.getSubscriptionStatus ?n1 ?n2
                    (snd (Subscription.cancelSubscription true ?s)) = _ /\ _ =>
      destruct (cancelSubscription_then_read s
                  (Some {| Subscription.stored_isActive := true;
                           Subscription.stored_plan := Some Subscription.premium_monthly;
                           Subscription.stored_expiresAt :=
                             Some (1700000000000 + 10 * Calendar.msPerDay) |})
                  (Some {| Subscription.planId := "premium_monthly";
                           Subscription.startedAt :=
                             1700000000000 - 2 * Calendar.msPerDay;
                           Subscription.trial_expiresAt :=
                             1700000000000 + 5 * Calendar.msPerDay;
                           Subscription.used := true |})
                  n1 n2)
        as (_ & _ & (st & Hrun & Hplan & _ & Hact) & _)
  end.
  - split.
    + apply lookup_insert_eq.
    + rewrite lookup_insert_ne by discriminate. apply lookup_insert_eq.
  - exists st. split; [exact Hrun|]. split; [exact Hplan|].
    rewrite Hact. reflexivity.
Defined.

(** A plan id that is not in the catalog. *)
Lemma unknown_plan_is_refused_witness :
  Subscription.subscribeToPlan Calendar.europe_autumn_2023 "premium_weekly" true
    1700000000000 ∅
  = (inr {| Subscription.success := false;
            Subscription.error := Some "Plan not found." |}, ∅).
Proof.
  apply (unknown_plan_is_refused Calendar.europe_autumn_2023 ∅ "premium_weekly" true
           1700000000000 1700000000000); discriminate.
Defined.


(** A monthly subscription followed by a yearly one a second later. *)
Lemma subscribeToPlan_replaces_witness :
  let tza := Calendar.europe_autumn_2023 in
  snd (Subscription.subscribeToPlan tza "premium_yearly" true 1700000001000
         (snd (Subscription.subscribeToPlan tza "premium_monthly" true
                 1700000000000 ∅)))
  = snd (Subscription.subscribeToPlan tza "premium_yearly" true 1700000001000 ∅).
Proof.
  apply (subscribeToPlan_replaces Calendar.europe_autumn_2023 ∅
           "premium_monthly" true 1700000000000
           Subscription.premium_yearly 1700000001000).
  simpl. auto.
Defined.

(** A monthly subscription taken in central Europe on 25 October 2023, a
    trial started sixty days later and a read the day after. *)
Lemma trial_after_lapsed_subscription_witness :
  let tza := Calendar.europe_autumn_2023 in
  let t1 := 1698228000000 in
  let t2 := t1 + 60 * Calendar.msPerDay in
  let s1 := snd (Subscription.subscribeToPlan tza "premium_monthly" true t1 ∅) in
  let s2 := snd (Subscription.startFreeTrial tza "premium_monthly" true t2 t2 s1) in
  Subscription.hasPremiumAccess (t2 + Calendar.msPerDay) (t2 + Calendar.msPerDay) s2
  = (inr false, s2).
Proof.
  cbv zeta.
  destruct (trial_after_lapsed_subscription Calendar.europe_autumn_2023 ∅
              (snd (Subscription.startFreeTrial Calendar.europe_autumn_2023
                      "premium_monthly" true
                      (1698228000000 + 60 * Calendar.msPerDay)
                      (1698228000000 + 60 * Calendar.msPerDay)
                      (snd (Subscription.subscribeToPlan Calendar.europe_autumn_2023
                              "premium_monthly" true 1698228000000 ∅))))
              "premium_monthly" true 1698228000000
              (1698228000000 + 60 * Calendar.msPerDay)
              (1698228000000 + 60 * Calendar.msPerDay)
              (1698228000000 + 60 * Calendar.msPerDay + Calendar.msPerDay)
              (1698228000000 + 60 * Calendar.msPerDay + Calendar.msPerDay)
              3600000)
    as (st & _ & _ & _ & Hacc).
  - reflexivity.
  - intros t b t' b'. unfold Calendar.europe_autumn_2023.
    destruct b, b'; repeat destruct (_ <? _); lia.
  - reflexivity.
  - vm_compute. discriminate.
  - reflexivity.
  - exact Hacc.
Defined.
